(** * TaskFlow: the job lifecycle engine

    A shallow embedding of the Go sources of TaskFlow and the theorems
    that relate them to the written specification.

    - [Go], [time]  machine integers, errors, [time.Duration], [time.Time]
    - [json]        the part of [encoding/json] the payload schemas use
    - [types]       internal/types: jobs, requests, payloads, validation,
                    the retryability classifier
    - [sys]         the world the services run in: Redis, Postgres, the clock
    - [queue]       internal/queue/redis.go
    - [storage]     internal/storage/postgres.go
    - [worker]      internal/worker: the registry and [Worker.processNextJob]
    - [api]         internal/api/handlers.go: [Server.cancelJob]
    - [scenario]    concrete requests, jobs and worlds
    - [text], [effect]  vocabulary of the statements

    The theorems follow the definitions. *)

From Stdlib Require Import ZArith List Ascii String Lia Bool Sorted.
From stdpp Require Import base option gmap strings list.
Import ListNotations.

Local Open Scope string_scope.
Local Open Scope Z_scope.

(* ===================================================================== *)
(** ** Go's machine integers and the [time] package *)
(* ===================================================================== *)

Module Go.

(** [int] (on the 64-bit targets the services are built for), [int64] and
    [time.Duration] are 64-bit two's complement; the value of an arithmetic
    result is the mathematical one wrapped. *)
Definition min_int64 : Z := - 2 ^ 63.
Definition max_int64 : Z := 2 ^ 63 - 1.

Definition is_int64 (z : Z) : Prop := min_int64 <= z <= max_int64.

Definition wrap64 (z : Z) : Z := (z + 2 ^ 63) mod 2 ^ 64 - 2 ^ 63.

(** [uint(x)] for an [int] x. *)
Definition to_uint (z : Z) : Z := z mod 2 ^ 64.

Definition add64 (a b : Z) : Z := wrap64 (a + b).
Definition mul64 (a b : Z) : Z := wrap64 (a * b).

(** [x << n] for an int64 [x] and an unsigned count [n]: counts of 64 and
    more shift every bit out. *)
Definition shl64 (x n : Z) : Z :=
  if 64 <=? n then 0 else wrap64 (Z.shiftl x n).

(** Go's [error] interface: [nil], or a value with a message. *)
Definition error : Type := option string.

Definition Errorf (msg : string) : error := Some msg.

End Go.

Module time.

(** [time.Duration] counts nanoseconds in an int64. *)
Definition Duration : Type := Z.

Definition Nanosecond : Duration := 1.
Definition Microsecond : Duration := 1000 * Nanosecond.
Definition Millisecond : Duration := 1000 * Microsecond.
Definition Second : Duration := 1000 * Millisecond.
Definition Minute : Duration := 60 * Second.
Definition Hour : Duration := 60 * Minute.

(** A [time.Time] instant, as nanoseconds on the wall clock. *)
Definition Time : Type := Z.

Definition Add (t : Time) (d : Duration) : Time := t + d.

End time.

(* ===================================================================== *)
(** ** encoding/json, as far as the payload schemas need it *)
(* ===================================================================== *)

(** [json.Unmarshal] is library code.  It is modelled in two steps, as the
    library works: the text is checked and read against the JSON grammar
    (RFC 8259, with the library's nesting limit), then the value is stored
    into the Go variable following the rules of the target type.  Strings
    are byte strings; where the library substitutes U+FFFD for malformed
    UTF-8 inside a string the bytes are kept as they are. *)
Module json.

#[local] Set Warnings "-register-all".

Inductive value : Type :=
| JNull
| JBool (b : bool)
| JNumber (lit : string)
| JString (s : string)
| JArray (elems : list value)
| JObject (members : list (string * value)).

Definition chr (n : N) : ascii := ascii_of_N n.
Definition code (c : ascii) : N := N_of_ascii c.
Definition is_chr (c : ascii) (n : N) : bool := N.eqb (code c) n.

Definition quote : N := 34.
Definition backslash : N := 92.

Definition is_space (c : ascii) : bool :=
  is_chr c 32 || is_chr c 9 || is_chr c 10 || is_chr c 13.

Fixpoint skip_space (s : list ascii) : list ascii :=
  match s with
  | c :: r => if is_space c then skip_space r else s
  | [] => []
  end.

Definition is_digit (c : ascii) : bool :=
  (N.leb 48 (code c)) && (N.leb (code c) 57).

Fixpoint span_digits (s : list ascii) : list ascii * list ascii :=
  match s with
  | c :: r =>
      if is_digit c
      then let '(ds, r') := span_digits r in (c :: ds, r')
      else ([], s)
  | [] => ([], [])
  end.

(** number = [ "-" ] int [ "." digits ] [ ("e"|"E") [ "+"|"-" ] digits ] *)
Definition scan_number (s : list ascii) : option (list ascii * list ascii) :=
  let '(sign, s1) :=
    match s with
    | c :: r => if is_chr c 45 then ([c], r) else ([], s)
    | [] => ([], s)
    end in
  let int_part :=
    match s1 with
    | c :: r =>
        if is_chr c 48 then Some ([c], r)
        else if is_digit c then Some (span_digits s1)
        else None
    | [] => None
    end in
  match int_part with
  | None => None
  | Some (ip, s2) =>
      let frac_part :=
        match s2 with
        | c :: r =>
            if is_chr c 46 then
              match span_digits r with
              | ([], _) => None
              | (ds, r') => Some (c :: ds, r')
              end
            else Some ([], s2)
        | [] => Some ([], s2)
        end in
      match frac_part with
      | None => None
      | Some (fp, s3) =>
          let exp_part :=
            match s3 with
            | c :: r =>
                if is_chr c 101 || is_chr c 69 then
                  let '(sg, r1) :=
                    match r with
                    | d :: r' => if is_chr d 43 || is_chr d 45 then ([d], r') else ([], r)
                    | [] => ([], r)
                    end in
                  match span_digits r1 with
                  | ([], _) => None
                  | (ds, r') => Some ((c :: sg ++ ds)%list, r')
                  end
                else Some ([], s3)
            | [] => Some ([], s3)
            end in
          match exp_part with
          | None => None
          | Some (ep, s4) => Some ((sign ++ ip ++ fp ++ ep)%list, s4)
          end
      end
  end.

Definition hex_val (c : ascii) : option N :=
  let n := code c in
  if N.leb 48 n && N.leb n 57 then Some (n - 48)%N
  else if N.leb 97 n && N.leb n 102 then Some (n - 87)%N
  else if N.leb 65 n && N.leb n 70 then Some (n - 55)%N
  else None.

(** [getu4]: the code unit of four hex digits. *)
Definition getu4 (a b c d : ascii) : option N :=
  match hex_val a, hex_val b, hex_val c, hex_val d with
  | Some x, Some y, Some z, Some w => Some (((x * 16 + y) * 16 + z) * 16 + w)%N
  | _, _, _, _ => None
  end.

(** [utf8.EncodeRune] for a scalar value. *)
Definition utf8_encode (r : N) : list ascii :=
  if N.ltb r 128 then [chr r]
  else if N.ltb r 2048 then
    [chr (192 + N.shiftr r 6); chr (128 + N.land r 63)]
  else if N.ltb r 65536 then
    [chr (224 + N.shiftr r 12); chr (128 + N.land (N.shiftr r 6) 63);
     chr (128 + N.land r 63)]
  else
    [chr (240 + N.shiftr r 18); chr (128 + N.land (N.shiftr r 12) 63);
     chr (128 + N.land (N.shiftr r 6) 63); chr (128 + N.land r 63)].

Definition ReplacementChar : N := 65533.

Definition is_surrogate (r : N) : bool := N.leb 55296 r && N.ltb r 57344.

(** [utf16.DecodeRune]. *)
Definition utf16_decode (r1 r2 : N) : N :=
  if N.leb 55296 r1 && N.ltb r1 56320 && N.leb 56320 r2 && N.ltb r2 57344
  then ((r1 - 55296) * 1024 + (r2 - 56320) + 65536)%N
  else ReplacementChar.

(** The body of a string literal, after its opening quote: the unquoted
    bytes and the text after the closing quote.  Control characters must be
    escaped; an escaped surrogate that is not followed by its low half
    becomes U+FFFD. *)
Fixpoint scan_string (s : list ascii) (acc : list ascii)
  : option (string * list ascii) :=
  match s with
  | [] => None
  | c :: r =>
      if is_chr c quote then Some (string_of_list_ascii (rev acc), r)
      else if N.ltb (code c) 32 then None
      else if is_chr c backslash then
        match r with
        | [] => None
        | e :: r1 =>
            if is_chr e quote || is_chr e backslash || is_chr e 47
            then scan_string r1 (e :: acc)
            else if is_chr e 98 then scan_string r1 (chr 8 :: acc)
            else if is_chr e 102 then scan_string r1 (chr 12 :: acc)
            else if is_chr e 110 then scan_string r1 (chr 10 :: acc)
            else if is_chr e 114 then scan_string r1 (chr 13 :: acc)
            else if is_chr e 116 then scan_string r1 (chr 9 :: acc)
            else if is_chr e 117 then
              match r1 with
              | h1 :: h2 :: h3 :: h4 :: r2 =>
                  match getu4 h1 h2 h3 h4 with
                  | None => None
                  | Some rr =>
                      if is_surrogate rr then
                        match r2 with
                        | b :: u :: l1 :: l2 :: l3 :: l4 :: r3 =>
                            match
                              (if is_chr b backslash && is_chr u 117
                               then getu4 l1 l2 l3 l4 else None)
                            with
                            | Some rr1 =>
                                if N.eqb (utf16_decode rr rr1) ReplacementChar
                                then scan_string r2
                                       (rev_append (utf8_encode ReplacementChar) acc)
                                else scan_string r3
                                       (rev_append (utf8_encode (utf16_decode rr rr1)) acc)
                            | None =>
                                scan_string r2
                                  (rev_append (utf8_encode ReplacementChar) acc)
                            end
                        | _ =>
                            scan_string r2
                              (rev_append (utf8_encode ReplacementChar) acc)
                        end
                      else scan_string r2 (rev_append (utf8_encode rr) acc)
                  end
              | _ => None
              end
            else None
        end
      else scan_string r (c :: acc)
  end.

Fixpoint has_prefix (p s : list ascii) : option (list ascii) :=
  match p, s with
  | [], _ => Some s
  | a :: p', b :: s' => if Ascii.eqb a b then has_prefix p' s' else None
  | _ :: _, [] => None
  end.

(** The scanner refuses documents nested deeper than this. *)
Definition maxNestingDepth : N := 10000.

Section Containers.

(** One value, to be read after skipping white space. *)
Variable scan_value : list ascii -> option (value * list ascii).

(** value { "," value } "]" *)
Fixpoint scan_elements (n : nat) (s : list ascii) (acc : list value)
  : option (list value * list ascii) :=
  match n with
  | O => None
  | S n' =>
      match scan_value s with
      | None => None
      | Some (v, r) =>
          match skip_space r with
          | c :: r' =>
              if is_chr c 44 then scan_elements n' r' (v :: acc)
              else if is_chr c 93 then Some (rev (v :: acc), r')
              else None
          | [] => None
          end
      end
  end.

(** string ":" value { "," string ":" value } "}" *)
Fixpoint scan_members (n : nat) (s : list ascii) (acc : list (string * value))
  : option (list (string * value) * list ascii) :=
  match n with
  | O => None
  | S n' =>
      match skip_space s with
      | q :: r =>
          if is_chr q quote then
            match scan_string r [] with
            | None => None
            | Some (k, r1) =>
                match skip_space r1 with
                | c :: r2 =>
                    if is_chr c 58 then
                      match scan_value r2 with
                      | None => None
                      | Some (v, r3) =>
                          match skip_space r3 with
                          | d :: r4 =>
                              if is_chr d 44 then scan_members n' r4 ((k, v) :: acc)
                              else if is_chr d 125 then Some (rev ((k, v) :: acc), r4)
                              else None
                          | [] => None
                          end
                      end
                    else None
                | [] => None
                end
            end
          else None
      | [] => None
      end
  end.

End Containers.

Fixpoint scan_value (fuel : nat) (depth : N) (s : list ascii)
  : option (value * list ascii) :=
  match fuel with
  | O => None
  | S fuel' =>
      match skip_space s with
      | [] => None
      | c :: r =>
          if is_chr c 123 then
            if N.ltb maxNestingDepth (depth + 1) then None
            else
              match skip_space r with
              | d :: r' =>
                  if is_chr d 125 then Some (JObject [], r')
                  else
                    match scan_members (scan_value fuel' (depth + 1)%N)
                            (S (List.length r)) r [] with
                    | Some (ms, r'') => Some (JObject ms, r'')
                    | None => None
                    end
              | [] => None
              end
          else if is_chr c 91 then
            if N.ltb maxNestingDepth (depth + 1) then None
            else
              match skip_space r with
              | d :: r' =>
                  if is_chr d 93 then Some (JArray [], r')
                  else
                    match scan_elements (scan_value fuel' (depth + 1)%N)
                            (S (List.length r)) r [] with
                    | Some (vs, r'') => Some (JArray vs, r'')
                    | None => None
                    end
              | [] => None
              end
          else if is_chr c quote then
            match scan_string r [] with
            | Some (str, r') => Some (JString str, r')
            | None => None
            end
          else if is_chr c 45 || is_digit c then
            match scan_number (c :: r) with
            | Some (lit, r') => Some (JNumber (string_of_list_ascii lit), r')
            | None => None
            end
          else
            match has_prefix (list_ascii_of_string "true") (c :: r) with
            | Some r' => Some (JBool true, r')
            | None =>
                match has_prefix (list_ascii_of_string "false") (c :: r) with
                | Some r' => Some (JBool false, r')
                | None =>
                    match has_prefix (list_ascii_of_string "null") (c :: r) with
                    | Some r' => Some (JNull, r')
                    | None => None
                    end
                end
            end
      end
  end.

(** A document is one value with white space around it and nothing else.
    Every level of nesting consumes an opening bracket and every round of
    a container loop consumes a value, so the text's length bounds both
    and the counters below never run out before the text does. *)
Definition parse (data : string) : option value :=
  let s := list_ascii_of_string data in
  match scan_value (S (List.length s)) 0%N s with
  | Some (v, r) => match skip_space r with [] => Some v | _ :: _ => None end
  | None => None
  end.

(** [strconv.ParseInt(lit, 10, 64)] on a number literal: an optional sign
    and digits only, within int64. *)
Fixpoint digits_value (s : list ascii) (acc : Z) : option Z :=
  match s with
  | [] => Some acc
  | c :: r =>
      if is_digit c
      then digits_value r (10 * acc + Z.of_N (code c - 48))
      else None
  end.

Definition ParseInt (lit : string) : option Z :=
  let s := list_ascii_of_string lit in
  let '(neg, ds) :=
    match s with
    | c :: r => if is_chr c 45 then (true, r) else (false, s)
    | [] => (false, s)
    end in
  match ds with
  | [] => None
  | _ :: _ =>
      match digits_value ds 0 with
      | None => None
      | Some n =>
          let z := if neg then - n else n in
          if (Go.min_int64 <=? z) && (z <=? Go.max_int64) then Some z else None
      end
  end.

(** The case folding under which an object key is matched to a field name
    when no field has exactly that name.  ASCII letters fold to upper case;
    the two other letters of Unicode that fold to an ASCII letter are the
    long s (U+017F, bytes C5 BF) and the Kelvin sign (U+212A, bytes
    E2 84 AA).  Field names here are ASCII, so other bytes stay. *)
Fixpoint foldName (s : list ascii) : list ascii :=
  match s with
  | [] => []
  | c :: r =>
      if N.leb 97 (code c) && N.leb (code c) 122
      then chr (code c - 32) :: foldName r
      else
        match r with
        | d :: r' =>
            if is_chr c 197 && is_chr d 191 then chr 83 :: foldName r'
            else
              match r' with
              | e :: r'' =>
                  if is_chr c 226 && is_chr d 132 && is_chr e 170
                  then chr 75 :: foldName r''
                  else c :: foldName r
              | [] => c :: foldName r
              end
        | [] => c :: foldName r
        end
  end.

Definition equalFold (key name : string) : bool :=
  String.eqb (string_of_list_ascii (foldName (list_ascii_of_string key)))
             (string_of_list_ascii (foldName (list_ascii_of_string name))).

Section Decode.

(** The struct being filled. *)
Context {T : Type}.

(** How a field takes a JSON value: the struct with the field stored, or
    [None] when the value has the wrong kind for the field's Go type. *)
Definition setter : Type := value -> T -> option T.

(** The fields of a struct, under the names of their [json] tags. *)
Definition fields : Type := list (string * setter).

Definition lookup_field (fs : fields) (key : string) : option setter :=
  match List.find (fun f => String.eqb (fst f) key) fs with
  | Some f => Some (snd f)
  | None =>
      match List.find (fun f => equalFold key (fst f)) fs with
      | Some f => Some (snd f)
      | None => None
      end
  end.

(** The members of an object are stored in the order of the text; a key
    that names no field is skipped; a value of the wrong kind leaves the
    field alone and is remembered as the error of the call. *)
Fixpoint object (fs : fields) (ms : list (string * value)) (t : T) (bad : bool)
  : T * bool :=
  match ms with
  | [] => (t, bad)
  | (k, v) :: ms' =>
      match lookup_field fs k with
      | None => object fs ms' t bad
      | Some set =>
          match set v t with
          | Some t' => object fs ms' t' bad
          | None => object fs ms' t true
          end
      end
  end.

(** [json.Unmarshal(data, &t)] for a struct [t]. *)
Definition Unmarshal (fs : fields) (data : string) (t : T) : T * Go.error :=
  match parse data with
  | None => (t, Go.Errorf "json: syntax error")
  | Some JNull => (t, None)
  | Some (JObject ms) =>
      let '(t', bad) := object fs ms t false in
      (t', if bad then Go.Errorf "json: cannot unmarshal value into Go struct field"
           else None)
  | Some _ => (t, Go.Errorf "json: cannot unmarshal value into Go value of struct type")
  end.

End Decode.

(** Storing into the Go types of the payload fields.  [null] leaves a
    string, bool or int as it was and sets a slice, map or interface to
    nil. *)
Definition into_string (v : value) (old : string) : option string :=
  match v with
  | JNull => Some old
  | JString s => Some s
  | _ => None
  end.

Definition into_bool (v : value) (old : bool) : option bool :=
  match v with
  | JNull => Some old
  | JBool b => Some b
  | _ => None
  end.

Definition into_int (v : value) (old : Z) : option Z :=
  match v with
  | JNull => Some old
  | JNumber lit => ParseInt lit
  | _ => None
  end.

Fixpoint into_elems {A : Type} (elem : value -> A -> option A) (zero : A)
  (vs : list value) : option (list A) :=
  match vs with
  | [] => Some []
  | v :: vs' =>
      match elem v zero, into_elems elem zero vs' with
      | Some a, Some l => Some (a :: l)
      | _, _ => None
      end
  end.

Definition into_slice {A : Type} (elem : value -> A -> option A) (zero : A)
  (v : value) (old : list A) : option (list A) :=
  match v with
  | JNull => Some []
  | JArray vs => into_elems elem zero vs
  | _ => None
  end.

Fixpoint into_entries {A : Type} (elem : value -> A -> option A) (zero : A)
  (ms : list (string * value)) (m : gmap string A) : option (gmap string A) :=
  match ms with
  | [] => Some m
  | (k, v) :: ms' =>
      match elem v zero with
      | Some a => into_entries elem zero ms' (<[k := a]> m)
      | None => None
      end
  end.

Definition into_map {A : Type} (elem : value -> A -> option A) (zero : A)
  (v : value) (old : gmap string A) : option (gmap string A) :=
  match v with
  | JNull => Some ∅
  | JObject ms => into_entries elem zero ms old
  | _ => None
  end.

(** [interface{}] takes any value; nil is [JNull]. *)
Definition into_any (v : value) (old : value) : option value := Some v.

End json.

(* ===================================================================== *)
(** ** internal/types *)
(* ===================================================================== *)

Module types.

(** *** payloads.go: the payload schema of each job type *)

Module EmailPayload.
Record t : Type := mk {
  To : string;
  CC : list string;
  BCC : list string;
  Subject : string;
  Body : string;
  HTML : bool;
  Headers : gmap string string
}.

Definition zero : t := mk EmptyString [] [] EmptyString EmptyString false ∅.

Definition fields : json.fields (T := t) :=
  [ ("to", fun v p => x ← json.into_string v (To p);
       Some (mk x (CC p) (BCC p) (Subject p) (Body p) (HTML p) (Headers p)));
    ("cc", fun v p => x ← json.into_slice json.into_string EmptyString v (CC p);
       Some (mk (To p) x (BCC p) (Subject p) (Body p) (HTML p) (Headers p)));
    ("bcc", fun v p => x ← json.into_slice json.into_string EmptyString v (BCC p);
       Some (mk (To p) (CC p) x (Subject p) (Body p) (HTML p) (Headers p)));
    ("subject", fun v p => x ← json.into_string v (Subject p);
       Some (mk (To p) (CC p) (BCC p) x (Body p) (HTML p) (Headers p)));
    ("body", fun v p => x ← json.into_string v (Body p);
       Some (mk (To p) (CC p) (BCC p) (Subject p) x (HTML p) (Headers p)));
    ("html", fun v p => x ← json.into_bool v (HTML p);
       Some (mk (To p) (CC p) (BCC p) (Subject p) (Body p) x (Headers p)));
    ("headers", fun v p => x ← json.into_map json.into_string EmptyString v (Headers p);
       Some (mk (To p) (CC p) (BCC p) (Subject p) (Body p) (HTML p) x)) ].
End EmailPayload.

Module ImageResizePayload.
Record t : Type := mk {
  ImageURL : string;
  Sizes : list Z;
  Format : string;
  Quality : Z;
  OutputPath : string;
  PreserveMeta : bool
}.

Definition zero : t := mk EmptyString [] EmptyString 0 EmptyString false.

Definition fields : json.fields (T := t) :=
  [ ("image_url", fun v p => x ← json.into_string v (ImageURL p);
       Some (mk x (Sizes p) (Format p) (Quality p) (OutputPath p) (PreserveMeta p)));
    ("sizes", fun v p => x ← json.into_slice json.into_int 0 v (Sizes p);
       Some (mk (ImageURL p) x (Format p) (Quality p) (OutputPath p) (PreserveMeta p)));
    ("format", fun v p => x ← json.into_string v (Format p);
       Some (mk (ImageURL p) (Sizes p) x (Quality p) (OutputPath p) (PreserveMeta p)));
    ("quality", fun v p => x ← json.into_int v (Quality p);
       Some (mk (ImageURL p) (Sizes p) (Format p) x (OutputPath p) (PreserveMeta p)));
    ("output_path", fun v p => x ← json.into_string v (OutputPath p);
       Some (mk (ImageURL p) (Sizes p) (Format p) (Quality p) x (PreserveMeta p)));
    ("preserve_meta", fun v p => x ← json.into_bool v (PreserveMeta p);
       Some (mk (ImageURL p) (Sizes p) (Format p) (Quality p) (OutputPath p) x)) ].
End ImageResizePayload.

Module WebhookPayload.
Record t : Type := mk {
  URL : string;
  Method : string;
  Headers : gmap string string;
  Data : json.value;
  Timeout : Z
}.

Definition zero : t := mk EmptyString EmptyString ∅ json.JNull 0.

Definition fields : json.fields (T := t) :=
  [ ("url", fun v p => x ← json.into_string v (URL p);
       Some (mk x (Method p) (Headers p) (Data p) (Timeout p)));
    ("method", fun v p => x ← json.into_string v (Method p);
       Some (mk (URL p) x (Headers p) (Data p) (Timeout p)));
    ("headers", fun v p => x ← json.into_map json.into_string EmptyString v (Headers p);
       Some (mk (URL p) (Method p) x (Data p) (Timeout p)));
    ("data", fun v p => x ← json.into_any v (Data p);
       Some (mk (URL p) (Method p) (Headers p) x (Timeout p)));
    ("timeout", fun v p => x ← json.into_int v (Timeout p);
       Some (mk (URL p) (Method p) (Headers p) (Data p) x)) ].

Definition with_Method (m : string) (p : t) : t :=
  mk (URL p) m (Headers p) (Data p) (Timeout p).
End WebhookPayload.

Module DataExportPayload.
Record t : Type := mk {
  ExportType : string;
  Query : string;
  Format : gmap string json.value;
  OutputPath : string;
  Filters : gmap string json.value
}.

Definition zero : t := mk EmptyString EmptyString ∅ EmptyString ∅.

Definition fields : json.fields (T := t) :=
  [ ("export_type", fun v p => x ← json.into_string v (ExportType p);
       Some (mk x (Query p) (Format p) (OutputPath p) (Filters p)));
    ("query", fun v p => x ← json.into_string v (Query p);
       Some (mk (ExportType p) x (Format p) (OutputPath p) (Filters p)));
    ("format", fun v p => x ← json.into_map json.into_any json.JNull v (Format p);
       Some (mk (ExportType p) (Query p) x (OutputPath p) (Filters p)));
    ("output_path", fun v p => x ← json.into_string v (OutputPath p);
       Some (mk (ExportType p) (Query p) (Format p) x (Filters p)));
    ("filters", fun v p => x ← json.into_map json.into_any json.JNull v (Filters p);
       Some (mk (ExportType p) (Query p) (Format p) (OutputPath p) x)) ].
End DataExportPayload.

(** *** The job model *)

Inductive JobStatus : Type :=
| JobStatusPending
| JobStatusProcessing
| JobStatusCompleted
| JobStatusFailed
| JobStatusRetrying.

#[global] Instance JobStatus_eq_dec : EqDecision JobStatus.
Proof. solve_decision. Defined.

(** The string a status is written as. *)
Definition JobStatus_string (s : JobStatus) : string :=
  match s with
  | JobStatusPending => "pending"
  | JobStatusProcessing => "processing"
  | JobStatusCompleted => "completed"
  | JobStatusFailed => "failed"
  | JobStatusRetrying => "retrying"
  end.

Definition JobType : Type := string.

Definition JobTypeEmail : JobType := "email".
Definition JobTypeImageResize : JobType := "image_resize".
Definition JobTypeWebhook : JobType := "webhook".
Definition JobTypeDataExport : JobType := "data_export".

(** [json.RawMessage]: the bytes of a JSON text; nil and empty have length
    zero alike. *)
Definition RawMessage : Type := string.

Record Job : Type := mkJob {
  ID : string;
  Type_ : JobType;
  Payload : RawMessage;
  Status : JobStatus;
  Result : RawMessage;
  Error : string;
  Attempts : Z;
  MaxAttempts : Z;
  CreatedAt : time.Time;
  UpdatedAt : time.Time;
  ScheduledAt : time.Time;
  StartedAt : option time.Time;
  CompletedAt : option time.Time;
  WorkerID : string
}.

(** Assignments to one field of a job. *)
Definition with_Status (x : JobStatus) (j : Job) : Job :=
  mkJob (ID j) (Type_ j) (Payload j) x (Result j) (Error j) (Attempts j)
    (MaxAttempts j) (CreatedAt j) (UpdatedAt j) (ScheduledAt j) (StartedAt j)
    (CompletedAt j) (WorkerID j).
Definition with_Result (x : RawMessage) (j : Job) : Job :=
  mkJob (ID j) (Type_ j) (Payload j) (Status j) x (Error j) (Attempts j)
    (MaxAttempts j) (CreatedAt j) (UpdatedAt j) (ScheduledAt j) (StartedAt j)
    (CompletedAt j) (WorkerID j).
Definition with_Error (x : string) (j : Job) : Job :=
  mkJob (ID j) (Type_ j) (Payload j) (Status j) (Result j) x (Attempts j)
    (MaxAttempts j) (CreatedAt j) (UpdatedAt j) (ScheduledAt j) (StartedAt j)
    (CompletedAt j) (WorkerID j).
Definition with_Attempts (x : Z) (j : Job) : Job :=
  mkJob (ID j) (Type_ j) (Payload j) (Status j) (Result j) (Error j) x
    (MaxAttempts j) (CreatedAt j) (UpdatedAt j) (ScheduledAt j) (StartedAt j)
    (CompletedAt j) (WorkerID j).
Definition with_MaxAttempts (x : Z) (j : Job) : Job :=
  mkJob (ID j) (Type_ j) (Payload j) (Status j) (Result j) (Error j) (Attempts j)
    x (CreatedAt j) (UpdatedAt j) (ScheduledAt j) (StartedAt j)
    (CompletedAt j) (WorkerID j).
Definition with_UpdatedAt (x : time.Time) (j : Job) : Job :=
  mkJob (ID j) (Type_ j) (Payload j) (Status j) (Result j) (Error j) (Attempts j)
    (MaxAttempts j) (CreatedAt j) x (ScheduledAt j) (StartedAt j)
    (CompletedAt j) (WorkerID j).
Definition with_ScheduledAt (x : time.Time) (j : Job) : Job :=
  mkJob (ID j) (Type_ j) (Payload j) (Status j) (Result j) (Error j) (Attempts j)
    (MaxAttempts j) (CreatedAt j) (UpdatedAt j) x (StartedAt j)
    (CompletedAt j) (WorkerID j).
Definition with_StartedAt (x : option time.Time) (j : Job) : Job :=
  mkJob (ID j) (Type_ j) (Payload j) (Status j) (Result j) (Error j) (Attempts j)
    (MaxAttempts j) (CreatedAt j) (UpdatedAt j) (ScheduledAt j) x
    (CompletedAt j) (WorkerID j).
Definition with_CompletedAt (x : option time.Time) (j : Job) : Job :=
  mkJob (ID j) (Type_ j) (Payload j) (Status j) (Result j) (Error j) (Attempts j)
    (MaxAttempts j) (CreatedAt j) (UpdatedAt j) (ScheduledAt j) (StartedAt j)
    x (WorkerID j).
Definition with_WorkerID (x : string) (j : Job) : Job :=
  mkJob (ID j) (Type_ j) (Payload j) (Status j) (Result j) (Error j) (Attempts j)
    (MaxAttempts j) (CreatedAt j) (UpdatedAt j) (ScheduledAt j) (StartedAt j)
    (CompletedAt j) x.

Module JobRequest.
Record t : Type := mk {
  Type_ : JobType;
  Payload : RawMessage;
  MaxAttempts : Z;
  ScheduledAt : option time.Time
}.
End JobRequest.

Record Worker : Type := mkWorker {
  WID : string;
  WStatus : string;
  LastSeen : time.Time;
  JobTypes : list JobType;
  CurrentJob : string
}.

(** *** Creating and validating jobs *)

Definition hexdigit (n : N) : ascii :=
  if N.ltb n 10 then ascii_of_N (48 + n) else ascii_of_N (87 + n).

(** [hex.EncodeToString] *)
Fixpoint EncodeToString (bytes : list Byte.byte) : string :=
  match bytes with
  | [] => EmptyString
  | b :: r =>
      String (hexdigit (N.div (Byte.to_N b) 16))
        (String (hexdigit (N.modulo (Byte.to_N b) 16)) (EncodeToString r))
  end.

(** [GenerateJobID]; [bytes] are the 16 bytes [rand.Read] filled in. *)
Definition GenerateJobID (bytes : list Byte.byte) : string :=
  EncodeToString bytes.

(** [NewJob]; [now] is the reading of [time.Now()] and [random] what
    [crypto/rand] delivers to [GenerateJobID]. *)
Definition NewJob (now : time.Time) (random : list Byte.byte) (req : JobRequest.t)
  : Job :=
  let job :=
    {| ID := GenerateJobID random;
       Type_ := JobRequest.Type_ req;
       Payload := JobRequest.Payload req;
       Status := JobStatusPending;
       Result := EmptyString;
       Error := EmptyString;
       Attempts := 0;
       MaxAttempts := 3;
       CreatedAt := now;
       UpdatedAt := now;
       ScheduledAt := now;
       StartedAt := None;
       CompletedAt := None;
       WorkerID := EmptyString |} in
  let job :=
    if 0 <? JobRequest.MaxAttempts req
    then with_MaxAttempts (JobRequest.MaxAttempts req) job
    else job in
  let job :=
    match JobRequest.ScheduledAt req with
    | Some t => with_ScheduledAt t job
    | None => job
    end in
  job.

Definition is_empty (s : string) : bool := String.eqb s EmptyString.

(** [validatePayloadStructure]: the payload is read into the struct of the
    job type and the required fields are checked against their zero
    value. *)
Definition validatePayloadStructure (jobType : JobType) (payload : RawMessage)
  : Go.error :=
  if String.eqb jobType JobTypeEmail then
    let '(emailPayload, err) :=
      json.Unmarshal EmailPayload.fields payload EmailPayload.zero in
    match err with
    | Some e => Go.Errorf ("invalid email payload: " ++ e)
    | None =>
        if is_empty (EmailPayload.To emailPayload)
        then Go.Errorf "email 'to' field is required"
        else if is_empty (EmailPayload.Subject emailPayload)
        then Go.Errorf "email 'subject' field is required"
        else None
    end
  else if String.eqb jobType JobTypeImageResize then
    let '(imagePayload, err) :=
      json.Unmarshal ImageResizePayload.fields payload ImageResizePayload.zero in
    match err with
    | Some e => Go.Errorf ("invalid image resize payload: " ++ e)
    | None =>
        if is_empty (ImageResizePayload.ImageURL imagePayload)
        then Go.Errorf "image_url is required"
        else if Nat.eqb (List.length (ImageResizePayload.Sizes imagePayload)) 0
        then Go.Errorf "at least one size is required"
        else None
    end
  else if String.eqb jobType JobTypeWebhook then
    let '(webhookPayload, err) :=
      json.Unmarshal WebhookPayload.fields payload WebhookPayload.zero in
    match err with
    | Some e => Go.Errorf ("invalid webhook payload: " ++ e)
    | None =>
        if is_empty (WebhookPayload.URL webhookPayload)
        then Go.Errorf "webhook URL is required"
        else
          let webhookPayload :=
            if is_empty (WebhookPayload.Method webhookPayload)
            then WebhookPayload.with_Method "POST" webhookPayload
            else webhookPayload in
          None
    end
  else if String.eqb jobType JobTypeDataExport then
    let '(exportPayload, err) :=
      json.Unmarshal DataExportPayload.fields payload DataExportPayload.zero in
    match err with
    | Some e => Go.Errorf ("invalid data export payload: " ++ e)
    | None =>
        if is_empty (DataExportPayload.ExportType exportPayload)
        then Go.Errorf "export_type is required"
        else if is_empty (DataExportPayload.Query exportPayload)
        then Go.Errorf "query is required"
        else None
    end
  else None.

Definition known_type (t : JobType) : bool :=
  String.eqb t JobTypeEmail || String.eqb t JobTypeImageResize
  || String.eqb t JobTypeWebhook || String.eqb t JobTypeDataExport.

(** [ValidateJobRequest] *)
Definition ValidateJobRequest (req : JobRequest.t) : Go.error :=
  if is_empty (JobRequest.Type_ req) then Go.Errorf "job type is required"
  else if Nat.eqb (String.length (JobRequest.Payload req)) 0
  then Go.Errorf "job payload is required"
  else if negb (known_type (JobRequest.Type_ req))
  then Go.Errorf ("invalid job type: " ++ JobRequest.Type_ req)
  else validatePayloadStructure (JobRequest.Type_ req) (JobRequest.Payload req).

(** *** The retryability classifier *)

(** [s[lo:hi]] for [lo <= hi <= len(s)], the only slices the code takes. *)
Definition slice (s : string) (lo hi : nat) : string :=
  String.substring lo (hi - lo) s.

(** The loop of [hasSubstring] with [n] values of [i] still to visit. *)
Fixpoint hasSubstring_loop (n i : nat) (s substr : string) : bool :=
  match n with
  | O => false
  | S n' =>
      if String.eqb (slice s i (i + String.length substr)) substr then true
      else hasSubstring_loop n' (S i) s substr
  end.

(** [for i := 0; i <= len(s)-len(substr); i++]: no round when the
    difference is negative. *)
Definition hasSubstring (s substr : string) : bool :=
  if Nat.leb (String.length substr) (String.length s)
  then hasSubstring_loop (String.length s - String.length substr + 1) 0 s substr
  else false.

(** [contains]; the operands of [&&] and [||] are pure, so evaluating them
    all gives Go's value. *)
Definition contains (s substr : string) : bool :=
  Nat.leb (String.length substr) (String.length s) &&
  (String.eqb s substr ||
   (Nat.ltb (String.length substr) (String.length s) &&
    (String.eqb (slice s 0 (String.length substr)) substr ||
     String.eqb (slice s (String.length s - String.length substr) (String.length s)) substr ||
     hasSubstring s substr))).

Definition retryablePatterns : list string :=
  [ "connection refused";
    "timeout";
    "temporary failure";
    "network is unreachable";
    "no route to host";
    "connection reset" ].

(** [IsRetryableError]; a non-nil error is held by its message. *)
Definition IsRetryableError (err : Go.error) : bool :=
  match err with
  | None => false
  | Some errorString =>
      existsb (fun pattern => contains errorString pattern) retryablePatterns
  end.

End types.

(* ===================================================================== *)
(** ** The world of the services: Redis, Postgres and the clock *)
(* ===================================================================== *)

Module sys.

(** The Redis keys the queue uses:
    - [pending]     the list [taskflow:jobs:pending], head first;
    - [processing]  the list [taskflow:jobs:processing], head first;
    - [jobs]        under [taskflow:job:<id>], the job whose JSON text the
                    key holds (marshalling a job and reading it back gives
                    the job);
    - [stats]       the hash [taskflow:stats]; a field that is not there
                    counts from 0.
    Keys do not expire in the model and commands do not fail for reasons
    of transport. *)
Record Redis : Type := mkRedis {
  pending : list string;
  processing : list string;
  jobs : gmap string types.Job;
  stats : gmap string Z
}.

(** The tables [jobs] and [workers], by primary key. *)
Record Postgres : Type := mkPostgres {
  jobs_table : gmap string types.Job;
  workers_table : gmap string types.Worker
}.

(** [clock n] is what the [n]-th call of [time.Now()] reads. *)
Record World : Type := mkWorld {
  redis : Redis;
  db : Postgres;
  clock : nat -> time.Time;
  ticks : nat
}.

(** Computations that read and change the world. *)
Definition M (A : Type) : Type := World -> A * World.

#[global] Instance M_ret : MRet M := fun A (a : A) w => (a, w).
#[global] Instance M_bind : MBind M := fun A B (f : A -> M B) (m : M A) w =>
  let '(a, w') := m w in f a w'.

Definition run {A : Type} (m : M A) (w : World) : A * World := m w.

Definition get_redis : M Redis := fun w => (redis w, w).
Definition put_redis (r : Redis) : M unit :=
  fun w => (tt, mkWorld r (db w) (clock w) (ticks w)).
Definition get_db : M Postgres := fun w => (db w, w).
Definition put_db (d : Postgres) : M unit :=
  fun w => (tt, mkWorld (redis w) d (clock w) (ticks w)).

(** [time.Now()] *)
Definition Now : M time.Time :=
  fun w => (clock w (ticks w), mkWorld (redis w) (db w) (clock w) (S (ticks w))).

End sys.

(* ===================================================================== *)
(** ** internal/queue/redis.go *)
(* ===================================================================== *)

Module queue.

Import sys.

(** The two list keys; [JobKeyPrefix] and [StatsKey] address the other
    two components of [Redis]. *)
Inductive ListKey : Type := JobQueueKey | ProcessingQueueKey.

(** *** The Redis commands the queue issues *)

Definition LPush (key : ListKey) (v : string) : M unit :=
  r ← get_redis;
  match key with
  | JobQueueKey =>
      put_redis (mkRedis (v :: pending r) (processing r) (jobs r) (stats r))
  | ProcessingQueueKey =>
      put_redis (mkRedis (pending r) (v :: processing r) (jobs r) (stats r))
  end.

(** The first occurrence from the head, if any, is taken out. *)
Fixpoint remove_first (v : string) (l : list string) : list string :=
  match l with
  | [] => []
  | x :: l' => if String.eqb x v then l' else x :: remove_first v l'
  end.

(** [LREM key 1 v] *)
Definition LRem1 (key : ListKey) (v : string) : M unit :=
  r ← get_redis;
  match key with
  | JobQueueKey =>
      put_redis (mkRedis (remove_first v (pending r)) (processing r) (jobs r) (stats r))
  | ProcessingQueueKey =>
      put_redis (mkRedis (pending r) (remove_first v (processing r)) (jobs r) (stats r))
  end.

(** [BRPOPLPUSH pending processing timeout]: the tail of [pending] moves
    to the head of [processing]; [None] is [redis.Nil], the answer when
    nothing was pushed before the timeout. *)
Definition BRPopLPush : M (option string) :=
  r ← get_redis;
  match List.rev (pending r) with
  | [] => mret None
  | v :: front =>
      put_redis (mkRedis (List.rev front) (v :: processing r) (jobs r) (stats r));;
      mret (Some v)
  end.

(** [SET taskflow:job:<id> <json of job> EX 24h] *)
Definition Set_ (id : string) (job : types.Job) : M unit :=
  r ← get_redis;
  put_redis (mkRedis (pending r) (processing r) (<[id := job]> (jobs r)) (stats r)).

(** [GET taskflow:job:<id>] *)
Definition Get (id : string) : M (option types.Job) :=
  r ← get_redis; mret (jobs r !! id).

(** [HINCRBY taskflow:stats field n] *)
Definition HIncrBy (field : string) (n : Z) : M unit :=
  r ← get_redis;
  put_redis (mkRedis (pending r) (processing r) (jobs r)
               (<[field := default 0 (stats r !! field) + n]> (stats r))).

(** *** RedisQueue *)

(** [EnqueueJob] *)
Definition EnqueueJob (job : types.Job) : M Go.error :=
  Set_ (types.ID job) job;;
  LPush JobQueueKey (types.ID job);;
  HIncrBy "total" 1;;
  HIncrBy "pending" 1;;
  mret None.

(** [GetJob]: the job, or the error of the lookup. *)
Definition GetJob (jobID : string) : M (types.Job + string) :=
  result ← Get jobID;
  match result with
  | None => mret (inr ("job not found: " ++ jobID))
  | Some job => mret (inl job)
  end.

(** [UpdateJob] *)
Definition UpdateJob (job : types.Job) : M Go.error :=
  Set_ (types.ID job) job;;
  mret None.

(** [DequeueJob]: Go's pair of a job pointer and an error. *)
Definition DequeueJob (workerID : string) : M (option types.Job * Go.error) :=
  result ← BRPopLPush;
  match result with
  | None => mret (None, None)
  | Some jobID =>
      got ← GetJob jobID;
      match got with
      | inr err =>
          LRem1 ProcessingQueueKey jobID;;
          mret (None, Some err)
      | inl job =>
          let job := types.with_Status types.JobStatusProcessing job in
          let job := types.with_WorkerID workerID job in
          now ← Now;
          let job := types.with_StartedAt (Some now) job in
          let job := types.with_UpdatedAt now job in
          err ← UpdateJob job;
          match err with
          | Some e => mret (None, Go.Errorf ("failed to update job status: " ++ e))
          | None =>
              HIncrBy "pending" (-1);;
              HIncrBy "processing" 1;;
              mret (Some job, None)
          end
      end
  end.

(** [CompleteJob] *)
Definition CompleteJob (jobID : string) (result : types.RawMessage) : M Go.error :=
  got ← GetJob jobID;
  match got with
  | inr err => mret (Some err)
  | inl job =>
      let job := types.with_Status types.JobStatusCompleted job in
      let job := types.with_Result result job in
      now ← Now;
      let job := types.with_CompletedAt (Some now) job in
      let job := types.with_UpdatedAt now job in
      Set_ (types.ID job) job;;
      LRem1 ProcessingQueueKey jobID;;
      HIncrBy "processing" (-1);;
      HIncrBy "completed" 1;;
      mret None
  end.

(** [calculateRetryDelay]: the shift and the product are int64
    operations. *)
Definition calculateRetryDelay (attempts : Z) : time.Duration :=
  let base := Go.mul64 time.Second 5 in
  let delay := Go.mul64 base (Go.shl64 1 (Go.to_uint (Go.add64 attempts (-1)))) in
  if 5 * time.Minute <? delay then 5 * time.Minute else delay.

(** [requeueJobWithDelay]: the delay only enters [ScheduledAt]; the id goes
    back to the head of the pending list at once. *)
Definition requeueJobWithDelay (job : types.Job) (delay : time.Duration)
  : M Go.error :=
  now ← Now;
  let job := types.with_ScheduledAt (time.Add now delay) job in
  Set_ (types.ID job) job;;
  LPush JobQueueKey (types.ID job);;
  mret None.

(** [FailJob] *)
Definition FailJob (jobID : string) (errorMsg : string) : M Go.error :=
  got ← GetJob jobID;
  match got with
  | inr err => mret (Some err)
  | inl job =>
      let job := types.with_Attempts (Go.add64 (types.Attempts job) 1) job in
      let job := types.with_Error errorMsg job in
      now ← Now;
      let job := types.with_UpdatedAt now job in
      if types.Attempts job <? types.MaxAttempts job then
        let job := types.with_Status types.JobStatusRetrying job in
        requeueJobWithDelay job (calculateRetryDelay (types.Attempts job))
      else
        let job := types.with_Status types.JobStatusFailed job in
        now ← Now;
        let job := types.with_CompletedAt (Some now) job in
        Set_ (types.ID job) job;;
        LRem1 ProcessingQueueKey jobID;;
        HIncrBy "processing" (-1);;
        (if bool_decide (types.Status job = types.JobStatusFailed)
         then HIncrBy "failed" 1
         else HIncrBy "pending" 1);;
        mret None
  end.

End queue.

(* ===================================================================== *)
(** ** internal/storage/postgres.go *)
(* ===================================================================== *)

Module storage.

Import sys.

(** [GetJob]: [SELECT ... FROM jobs WHERE id = $1] *)
Definition GetJob (jobID : string) : M (types.Job + string) :=
  d ← get_db;
  match jobs_table d !! jobID with
  | None => mret (inr ("job not found: " ++ jobID))
  | Some job => mret (inl job)
  end.

(** The columns [UPDATE jobs SET ...] assigns, taken from [job]. *)
Definition update_row (job row : types.Job) : types.Job :=
  {| types.ID := types.ID row;
     types.Type_ := types.Type_ row;
     types.Payload := types.Payload row;
     types.Status := types.Status job;
     types.Result := types.Result job;
     types.Error := types.Error job;
     types.Attempts := types.Attempts job;
     types.MaxAttempts := types.MaxAttempts row;
     types.CreatedAt := types.CreatedAt row;
     types.UpdatedAt := types.UpdatedAt job;
     types.ScheduledAt := types.ScheduledAt row;
     types.StartedAt := types.StartedAt job;
     types.CompletedAt := types.CompletedAt job;
     types.WorkerID := types.WorkerID job |}.

(** [UpdateJob]: [UPDATE jobs SET ... WHERE id = $1]; no row, no change. *)
Definition UpdateJob (job : types.Job) : M Go.error :=
  d ← get_db;
  match jobs_table d !! types.ID job with
  | Some row =>
      put_db (mkPostgres (<[types.ID job := update_row job row]> (jobs_table d))
                (workers_table d));;
      mret None
  | None => mret None
  end.

(** [RegisterWorker]: [INSERT ... ON CONFLICT (id) DO UPDATE]; every
    column of the model is overwritten. *)
Definition RegisterWorker (worker : types.Worker) : M Go.error :=
  d ← get_db;
  put_db (mkPostgres (jobs_table d)
            (<[types.WID worker := worker]> (workers_table d)));;
  mret None.

End storage.

(* ===================================================================== *)
(** ** internal/worker *)
(* ===================================================================== *)

Module worker.

Import sys.

(** A [JobProcessor], by what its [ProcessJob] returns for a job.  The
    processors simulate their work and touch neither Redis nor
    Postgres. *)
Definition JobProcessor : Type := types.Job -> types.RawMessage * Go.error.

Definition ProcessorRegistry : Type := gmap string JobProcessor.

(** [ProcessorRegistry.ProcessJob] *)
Definition ProcessJob (r : ProcessorRegistry) (job : types.Job)
  : types.RawMessage * Go.error :=
  match r !! types.Type_ job with
  | None =>
      (EmptyString, Go.Errorf ("no processor found for job type: " ++ types.Type_ job))
  | Some processor =>
      match processor job with
      | (_, Some err) => (EmptyString, Some err)
      | (result, None) => (result, None)
      end
  end.

Record Worker : Type := mkWorker {
  ID : string;
  registry : ProcessorRegistry;
  supportedTypes : list types.JobType
}.

(** [updateWorkerStatus]; a failure would only be logged. *)
Definition updateWorkerStatus (w : Worker) (status currentJob : string) : M unit :=
  now ← Now;
  _ ← storage.RegisterWorker
        (types.mkWorker (ID w) status now (supportedTypes w) currentJob);
  mret tt.

(** [processNextJob].  Log lines are left out; the test
    [IsRetryableError(err) && job.Attempts < job.MaxAttempts] guards
    nothing but a log line.  The second reading of the clock around
    [ProcessJob] is that of [time.Since]. *)
Definition processNextJob (w : Worker) : M Go.error :=
  '(job, err) ← queue.DequeueJob (ID w);
  match err with
  | Some e => mret (Go.Errorf ("failed to dequeue job: " ++ e))
  | None =>
      match job with
      | None => mret None
      | Some job =>
          updateWorkerStatus w "processing" (types.ID job);;
          startTime ← Now;
          let '(result, err) := ProcessJob (registry w) job in
          _ ← Now;
          match err with
          | Some e =>
              _ ← queue.FailJob (types.ID job) e;
              let job := types.with_Status types.JobStatusFailed job in
              let job := types.with_Error e job in
              let job := types.with_Attempts (Go.add64 (types.Attempts job) 1) job in
              now ← Now;
              let job := types.with_UpdatedAt now job in
              let job :=
                if types.MaxAttempts job <=? types.Attempts job
                then types.with_CompletedAt (Some now) job
                else job in
              _ ← storage.UpdateJob job;
              mret tt
          | None =>
              _ ← queue.CompleteJob (types.ID job) result;
              let job := types.with_Status types.JobStatusCompleted job in
              let job := types.with_Result result job in
              now ← Now;
              let job := types.with_UpdatedAt now job in
              let job := types.with_CompletedAt (Some now) job in
              _ ← storage.UpdateJob job;
              mret tt
          end;;
          updateWorkerStatus w "idle" EmptyString;;
          mret None
      end
  end.

End worker.

(* ===================================================================== *)
(** ** internal/api/handlers.go *)
(* ===================================================================== *)

Module api.

Import sys.

(** What a handler writes: the error envelope of [sendError], or a
    [JobResponse] under the status code. *)
Inductive Response : Type :=
| ErrorResponse (statusCode : Z) (code message details : string)
| JobResponse (statusCode : Z) (job : types.Job) (message : string).

Definition StatusOK : Z := 200.
Definition StatusBadRequest : Z := 400.
Definition StatusNotFound : Z := 404.
Definition StatusInternalServerError : Z := 500.

(** [Server.cancelJob]; [jobID] is the [id] variable of the route. *)
Definition cancelJob (jobID : string) : M Response :=
  if types.is_empty jobID then
    mret (ErrorResponse StatusBadRequest "MISSING_ID" "Job ID is required" EmptyString)
  else
    got ← queue.GetJob jobID;
    got ← match got with
          | inl job => mret (inl job)
          | inr _ => storage.GetJob jobID
          end;
    match got with
    | inr _ =>
        mret (ErrorResponse StatusNotFound "JOB_NOT_FOUND" "Job not found" EmptyString)
    | inl job =>
        if bool_decide (types.Status job = types.JobStatusCompleted)
           || bool_decide (types.Status job = types.JobStatusFailed)
        then
          mret (ErrorResponse StatusBadRequest "CANNOT_CANCEL" "Job cannot be cancelled"
                  ("Job is already " ++ types.JobStatus_string (types.Status job)))
        else
          err ← queue.FailJob jobID "Job cancelled by user";
          match err with
          | Some _ =>
              mret (ErrorResponse StatusInternalServerError "CANCEL_ERROR"
                      "Failed to cancel job" EmptyString)
          | None =>
              let job := types.with_Status types.JobStatusFailed job in
              let job := types.with_Error "Job cancelled by user" job in
              _ ← storage.UpdateJob job;
              mret (JobResponse StatusOK job "Job cancelled successfully")
          end
    end.

End api.

(* ===================================================================== *)
(** ** Concrete requests, jobs and worlds *)
(* ===================================================================== *)

Module scenario.

Import sys.

(** JSON texts are written with ['] for the double quote. *)
Fixpoint dq (s : string) : string :=
  match s with
  | EmptyString => EmptyString
  | String c r => String (if Ascii.eqb c "'" then json.chr json.quote else c) (dq r)
  end.

(** An image job asking for the widths -1 and 0. *)
Definition req_bad_sizes : types.JobRequest.t :=
  types.JobRequest.mk types.JobTypeImageResize
    (dq "{'image_url': 'https://example.com/image.jpg', 'sizes': [-1, 0]}")
    0 None.

(** An email job with every required field, and a flag of the wrong type. *)
Definition req_bad_flag : types.JobRequest.t :=
  types.JobRequest.mk types.JobTypeEmail
    (dq "{'to': 'a@b', 'subject': 's', 'html': 'yes'}")
    0 None.

(** A webhook job with the default budget of three attempts. *)
Definition req_webhook : types.JobRequest.t :=
  types.JobRequest.mk types.JobTypeWebhook
    (dq "{'url': 'https://example.com/hook', 'method': 'POST'}")
    0 None.

Definition random16 : list Byte.byte :=
  [ Byte.x00; Byte.x01; Byte.x02; Byte.x03; Byte.x04; Byte.x05; Byte.x06; Byte.x07;
    Byte.x08; Byte.x09; Byte.x0a; Byte.x0b; Byte.x0c; Byte.x0d; Byte.x0e; Byte.x0f ].

Definition job_webhook : types.Job := types.NewJob 1000 random16 req_webhook.

Definition id_webhook : string := types.ID job_webhook.

(** Nothing queued, nothing stored; the clock advances by a second a
    reading. *)
Definition world_empty : World :=
  mkWorld (mkRedis [] [] ∅ ∅) (mkPostgres ∅ ∅)
    (fun n => 2000 + Z.of_nat n * time.Second) 0.

(** The job created as [createJob] does: stored, then enqueued. *)
Definition world_queued : World :=
  snd (run (put_db (mkPostgres {[ id_webhook := job_webhook ]} ∅);;
            queue.EnqueueJob job_webhook) world_empty).

(** The job leased to a worker. *)
Definition world_leased : World :=
  snd (run (queue.DequeueJob "worker-1") world_queued).

(** The record Redis holds for the leased job. *)
Definition job_leased : types.Job :=
  types.with_UpdatedAt 2000
    (types.with_StartedAt (Some 2000)
       (types.with_WorkerID "worker-1"
          (types.with_Status types.JobStatusProcessing job_webhook))).

(** The job queued, and its record gone from Redis (its key expired). *)
Definition world_expired : World :=
  mkWorld (mkRedis (pending (redis world_queued)) (processing (redis world_queued))
             (delete id_webhook (jobs (redis world_queued)))
             (stats (redis world_queued)))
    (db world_queued) (clock world_queued) (ticks world_queued).

(** A worker whose webhook processor fails with a network error. *)
Definition failing_worker : worker.Worker :=
  worker.mkWorker "worker-1"
    {[ types.JobTypeWebhook :=
         (fun _ : types.Job => (EmptyString, Go.Errorf "connection refused")) ]}
    [types.JobTypeWebhook].

End scenario.

(* ===================================================================== *)
(** ** Occurrence of one byte string in another *)
(* ===================================================================== *)

Module text.

(** [substr] is found in [s], byte for byte, at some index. *)
Definition occurs (substr s : string) : Prop :=
  exists i : nat,
    (i + String.length substr <= String.length s)%nat
    /\ String.substring i (String.length substr) s = substr.

End text.

(* ===================================================================== *)
(** ** What [FailJob] leaves behind, written out *)
(* ===================================================================== *)

Module effect.

Import sys.

(** The record after the common part of [FailJob]: one more attempt, the
    error and the time of the update. *)
Definition attempted (job : types.Job) (errorMsg : string) (t : time.Time)
  : types.Job :=
  types.with_UpdatedAt t
    (types.with_Error errorMsg
       (types.with_Attempts (Go.add64 (types.Attempts job) 1) job)).

(** The record of a job that goes back to the queue. *)
Definition retried (job : types.Job) (errorMsg : string) (t t' : time.Time)
  : types.Job :=
  types.with_ScheduledAt
    (time.Add t' (queue.calculateRetryDelay (Go.add64 (types.Attempts job) 1)))
    (types.with_Status types.JobStatusRetrying (attempted job errorMsg t)).

(** The record of a job that is out of attempts. *)
Definition exhausted (job : types.Job) (errorMsg : string) (t t' : time.Time)
  : types.Job :=
  types.with_CompletedAt (Some t')
    (types.with_Status types.JobStatusFailed (attempted job errorMsg t)).

Definition first_reading (w : World) : time.Time := clock w (ticks w).
Definition second_reading (w : World) : time.Time := clock w (S (ticks w)).

(** The world after [FailJob] took the retry branch. *)
Definition retry (w : World) (job : types.Job) (errorMsg : string) : World :=
  mkWorld
    (mkRedis (types.ID job :: pending (redis w))
       (processing (redis w))
       (<[types.ID job :=
            retried job errorMsg (first_reading w) (second_reading w)]>
          (jobs (redis w)))
       (stats (redis w)))
    (db w) (clock w) (S (S (ticks w))).

(** The world after [FailJob] took the terminal branch. *)
Definition exhaust (w : World) (jobID : string) (job : types.Job)
  (errorMsg : string) : World :=
  mkWorld
    (mkRedis (pending (redis w))
       (queue.remove_first jobID (processing (redis w)))
       (<[types.ID job :=
            exhausted job errorMsg (first_reading w) (second_reading w)]>
          (jobs (redis w)))
       (<["failed" :=
            default 0
              (<["processing" := default 0 (stats (redis w) !! "processing") + -1]>
                 (stats (redis w)) !! "failed") + 1]>
          (<["processing" := default 0 (stats (redis w) !! "processing") + -1]>
             (stats (redis w)))))
    (db w) (clock w) (S (S (ticks w))).

End effect.

(* ===================================================================== *)
(** ** More of internal/queue, internal/storage, internal/worker and
       internal/api *)
(* ===================================================================== *)

Module queue_ext.

Import sys.



End queue_ext.

Module storage_ext.

Import sys.

(** [CreateJob]: [INSERT INTO jobs ...]; the primary key refuses a second
    row under the same id, and the driver's error is wrapped. *)
Definition CreateJob (job : types.Job) : M Go.error :=
  d ← get_db;
  match jobs_table d !! types.ID job with
  | Some _ =>
      mret (Go.Errorf "failed to create job: pq: duplicate key value violates unique constraint")
  | None =>
      put_db (mkPostgres (<[types.ID job := job]> (jobs_table d)) (workers_table d));;
      mret None
  end.

End storage_ext.

Module worker_ext.

Import sys.

(** A processor, by its two methods. *)
Record Processor : Type := mkProcessor {
  SupportedJobTypes : list types.JobType;
  Process : worker.JobProcessor
}.

(** [RegisterProcessor]: the processor is entered under each of its
    types, in their order. *)
Definition RegisterProcessor (r : worker.ProcessorRegistry) (processor : Processor)
  : worker.ProcessorRegistry :=
  List.fold_left (fun r jobType => <[jobType := Process processor]> r)
    (SupportedJobTypes processor) r.

(** [GetProcessor]: the processor and whether there is one. *)
Definition GetProcessor (r : worker.ProcessorRegistry) (jobType : types.JobType)
  : option worker.JobProcessor :=
  r !! jobType.

(** [NewProcessorRegistry], given what the four processors do with a
    job; each supports the one type its [SupportedJobTypes] returns. *)
Definition NewProcessorRegistry (email image webhook export : worker.JobProcessor)
  : worker.ProcessorRegistry :=
  let registry := (∅ : worker.ProcessorRegistry) in
  let registry := RegisterProcessor registry (mkProcessor [types.JobTypeEmail] email) in
  let registry :=
    RegisterProcessor registry (mkProcessor [types.JobTypeImageResize] image) in
  let registry := RegisterProcessor registry (mkProcessor [types.JobTypeWebhook] webhook) in
  let registry :=
    RegisterProcessor registry (mkProcessor [types.JobTypeDataExport] export) in
  registry.

(** The loop of [Start] for [n] turns in which neither the context nor
    the shutdown channel is ready: [processNextJob] is called, its error
    is logged, and the loop goes on. *)
Fixpoint rounds (n : nat) (w : worker.Worker) : M unit :=
  match n with
  | O => mret tt
  | S n' => _ ← worker.processNextJob w; rounds n' w
  end.

End worker_ext.

Module api_ext.

Import sys.

Definition StatusCreated : Z := 201.

(** [Server.createJob].  [body] is what decoding the request body gives:
    the request, or the error of the decoder; [random] is what
    [crypto/rand] delivers to [GenerateJobID]. *)
Definition createJob (random : list Byte.byte) (body : types.JobRequest.t + string)
  : M api.Response :=
  match body with
  | inr err =>
      mret (api.ErrorResponse api.StatusBadRequest "INVALID_JSON" "Invalid JSON payload" err)
  | inl req =>
      match types.ValidateJobRequest req with
      | Some err =>
          mret (api.ErrorResponse api.StatusBadRequest "VALIDATION_ERROR"
                  "Invalid job request" err)
      | None =>
          now ← Now;
          let job := types.NewJob now random req in
          err ← storage_ext.CreateJob job;
          match err with
          | Some _ =>
              mret (api.ErrorResponse api.StatusInternalServerError "STORAGE_ERROR"
                      "Failed to create job" EmptyString)
          | None =>
              err ← queue.EnqueueJob job;
              match err with
              | Some _ =>
                  mret (api.ErrorResponse api.StatusInternalServerError "QUEUE_ERROR"
                          "Failed to enqueue job" EmptyString)
              | None =>
                  mret (api.JobResponse StatusCreated job "Job created successfully")
              end
          end
      end
  end.

(** [Server.getJob]: Redis first, Postgres for what Redis does not have. *)
Definition getJob (jobID : string) : M api.Response :=
  if types.is_empty jobID then
    mret (api.ErrorResponse api.StatusBadRequest "MISSING_ID" "Job ID is required"
            EmptyString)
  else
    got ← queue.GetJob jobID;
    got ← match got with
          | inl job => mret (inl job)
          | inr _ => storage.GetJob jobID
          end;
    match got with
    | inr _ =>
        mret (api.ErrorResponse api.StatusNotFound "JOB_NOT_FOUND" "Job not found"
                EmptyString)
    | inl job => mret (api.JobResponse api.StatusOK job EmptyString)
    end.

End api_ext.

(* ===================================================================== *)
(** ** Listing jobs: [PostgresStorage.ListJobs] and [Server.listJobs] *)
(* ===================================================================== *)

Module listing.

Import sys.

(** [ORDER BY created_at DESC], by insertion: [j] goes before the first
    row that is not newer than it.  SQL leaves the order of rows of equal
    [created_at] open; they come here as the table scan met them. *)
Fixpoint insert_newest (j : types.Job) (l : list types.Job) : list types.Job :=
  match l with
  | [] => [j]
  | x :: l' =>
      if types.CreatedAt x <=? types.CreatedAt j then j :: l
      else x :: insert_newest j l'
  end.

Definition newest_first (l : list types.Job) : list types.Job :=
  List.fold_right insert_newest [] l.

(** The [WHERE] clause: a condition for each filter that is not empty. *)
Definition matches (status jobType : string) (row : types.Job) : bool :=
  (types.is_empty status
   || String.eqb (types.JobStatus_string (types.Status row)) status)
  && (types.is_empty jobType || String.eqb (types.Type_ row) jobType).

(** [ListJobs]: the count of the rows that match, and the page of them.
    The offset is computed in [int]; Postgres refuses a negative [LIMIT]
    or [OFFSET], which comes back as the error of the query. *)
Definition ListJobs (page pageSize : Z) (status jobType : string)
  : M (list types.Job * Z * Go.error) :=
  d ← get_db;
  let rows :=
    List.filter (matches status jobType)
      (List.map snd (map_to_list (jobs_table d))) in
  let total := Z.of_nat (List.length rows) in
  let offset := Go.mul64 (Go.add64 page (-1)) pageSize in
  if (pageSize <? 0) || (offset <? 0)
  then mret ([], 0, Go.Errorf "failed to query jobs: pq: LIMIT or OFFSET must not be negative")
  else
    mret (List.firstn (Z.to_nat pageSize)
            (List.skipn (Z.to_nat offset) (newest_first rows)),
          total, None).

(** [ListJobsResponse] *)
Record ListJobsResponse : Type := mkListJobsResponse {
  Jobs : list types.Job;
  Total : Z;
  Page : Z;
  PageSize : Z;
  TotalPages : Z
}.

(** [Server.listJobs]; [page] and [pageSize] are what [strconv.Atoi]
    makes of the query parameters, 0 when they are absent or no number. *)
Definition listJobs (page pageSize : Z) (status jobType : string)
  : M (ListJobsResponse + api.Response) :=
  let page := if page <? 1 then 1 else page in
  let pageSize := if (pageSize <? 1) || (100 <? pageSize) then 20 else pageSize in
  '(jobs, total, err) ← ListJobs page pageSize status jobType;
  match err with
  | Some _ =>
      mret (inr (api.ErrorResponse api.StatusInternalServerError "STORAGE_ERROR"
                   "Failed to retrieve jobs" EmptyString))
  | None =>
      let totalPages :=
        Z.quot (Go.add64 (Go.add64 total pageSize) (-1)) pageSize in
      mret (inl (mkListJobsResponse jobs total page pageSize totalPages))
  end.

(** The rows of the store that pass the filters. *)
Definition matching (w : World) (status jobType : string) : list types.Job :=
  List.filter (matches status jobType)
    (List.map snd (map_to_list (jobs_table (db w)))).

(** Newest first. *)
Definition newer_or_equal (a b : types.Job) : Prop :=
  types.CreatedAt b <= types.CreatedAt a.

End listing.

(* ===================================================================== *)
(** ** The worlds the queue operations leave behind, written out *)
(* ===================================================================== *)

Module effect_ext.

Import sys.

(** The record of a job handed to a worker at time [t]. *)
Definition leased (job : types.Job) (workerID : string) (t : time.Time) : types.Job :=
  types.with_UpdatedAt t
    (types.with_StartedAt (Some t)
       (types.with_WorkerID workerID
          (types.with_Status types.JobStatusProcessing job))).

(** The record of a job completed with [result] at time [t]. *)
Definition completed (job : types.Job) (result : types.RawMessage) (t : time.Time)
  : types.Job :=
  types.with_UpdatedAt t
    (types.with_CompletedAt (Some t)
       (types.with_Result result
          (types.with_Status types.JobStatusCompleted job))).

(** A counter of the statistics hash moved by [n]. *)
Definition bump (field : string) (n : Z) (data : gmap string Z) : gmap string Z :=
  <[field := default 0 (data !! field) + n]> data.

(** The value of a counter, 0 when the field is not there. *)
Definition counter (field : string) (w : World) : Z :=
  default 0 (stats (redis w) !! field).

(** The world after [EnqueueJob]. *)
Definition enqueue (w : World) (job : types.Job) : World :=
  mkWorld
    (mkRedis (types.ID job :: pending (redis w)) (processing (redis w))
       (<[types.ID job := job]> (jobs (redis w)))
       (bump "pending" 1 (bump "total" 1 (stats (redis w)))))
    (db w) (clock w) (ticks w).

(** The world after [DequeueJob] handed out the job at the tail of the
    pending list, [front] being the rest of that list. *)
Definition lease (w : World) (front : list string) (jobID : string) (job : types.Job)
  (workerID : string) : World :=
  mkWorld
    (mkRedis front (jobID :: processing (redis w))
       (<[types.ID job := leased job workerID (clock w (ticks w))]> (jobs (redis w)))
       (bump "processing" 1 (bump "pending" (-1) (stats (redis w)))))
    (db w) (clock w) (S (ticks w)).

(** The world after [CompleteJob]. *)
Definition complete (w : World) (jobID : string) (job : types.Job)
  (result : types.RawMessage) : World :=
  mkWorld
    (mkRedis (pending (redis w)) (queue.remove_first jobID (processing (redis w)))
       (<[types.ID job := completed job result (clock w (ticks w))]> (jobs (redis w)))
       (bump "completed" 1 (bump "processing" (-1) (stats (redis w)))))
    (db w) (clock w) (S (ticks w)).

(** Every record of Redis is kept under its own id. *)
Definition keyed (w : World) : Prop :=
  forall (id : string) (job : types.Job),
    jobs (redis w) !! id = Some job -> types.ID job = id.

(** The number of occurrences of an id in a list. *)
Definition occurrences (id : string) (l : list string) : nat :=
  List.length (List.filter (String.eqb id) l).

End effect_ext.

(* ===================================================================== *)
(** ** More concrete requests, jobs and workers *)
(* ===================================================================== *)

Module scenario_ext.

Import sys.




(** A result as a processor marshals it. *)
Definition result_ok : types.RawMessage := scenario.dq "{'status_code':200}".


(** Two registrations of one worker. *)
Definition worker_starting : types.Worker :=
  types.mkWorker "worker-2" "starting" 3000 [types.JobTypeWebhook] EmptyString.
Definition worker_idle : types.Worker :=
  types.mkWorker "worker-2" "idle" 4000 [types.JobTypeWebhook] EmptyString.

End scenario_ext.

(* ===================================================================== *)
(** * Theorems *)
(* ===================================================================== *)

(** ** Machine arithmetic *)

Lemma wrap64_id (z : Z) : Go.is_int64 z -> Go.wrap64 z = z.
Proof.
  unfold Go.is_int64, Go.min_int64, Go.max_int64, Go.wrap64. intros H.
  rewrite Z.mod_small; lia.
Qed.

Lemma add64_succ (a : Z) :
  Go.is_int64 a -> a < Go.max_int64 -> Go.add64 a 1 = a + 1.
Proof.
  intros Ha Hlt. unfold Go.add64. apply wrap64_id.
  unfold Go.is_int64, Go.min_int64, Go.max_int64 in *. lia.
Qed.

(** ** The retry delay *)

(** C4.  For every attempt count k from 1 to 10 the delay is
    min(5 s * 2^(k-1), 5 min), and the ten delays are 5, 10, 20, 40, 80,
    160, 300, 300, 300 and 300 seconds. *)
Theorem calculateRetryDelay_backoff (k : Z) :
  1 <= k <= 10 ->
  queue.calculateRetryDelay k = Z.min (5 * time.Second * 2 ^ (k - 1)) (5 * time.Minute)
  /\ List.map queue.calculateRetryDelay [1; 2; 3; 4; 5; 6; 7; 8; 9; 10]
     = List.map (fun s => s * time.Second) [5; 10; 20; 40; 80; 160; 300; 300; 300; 300].
Proof.
  intros Hk. split; [| vm_compute; reflexivity].
  assert (Hcases : k = 1 \/ k = 2 \/ k = 3 \/ k = 4 \/ k = 5 \/ k = 6 \/ k = 7
                   \/ k = 8 \/ k = 9 \/ k = 10) by lia.
  repeat (destruct Hcases as [-> | Hcases]; [vm_compute; reflexivity |]).
  subst k. vm_compute. reflexivity.
Qed.

Lemma calculateRetryDelay_backoff_witness :
  1 <= 7 <= 10
  /\ queue.calculateRetryDelay 7 = Z.min (5 * time.Second * 2 ^ (7 - 1)) (5 * time.Minute)
  /\ List.map queue.calculateRetryDelay [1; 2; 3; 4; 5; 6; 7; 8; 9; 10]
     = List.map (fun s => s * time.Second) [5; 10; 20; 40; 80; 160; 300; 300; 300; 300].
Proof. split; [lia | apply (calculateRetryDelay_backoff 7); lia]. Defined.

(** ** The retryability classifier *)

(** C10.  A nil error is not retryable. *)
Theorem IsRetryableError_nil : types.IsRetryableError None = false.
Proof. reflexivity. Qed.

(** C5.  The match is on the bytes as they are: a message in the case
    of the vocabulary is retryable, the same words capitalised are not. *)
Theorem IsRetryableError_capitalised :
  types.IsRetryableError (Go.Errorf "connection refused") = true
  /\ types.IsRetryableError (Go.Errorf "Connection Refused") = false
  /\ types.IsRetryableError (Go.Errorf "dial tcp: i/o TIMEOUT") = false.
Proof. vm_compute. repeat split. Qed.

(** What [contains] decides is occurrence byte for byte, and so is what
    [IsRetryableError] decides for the six patterns. *)
Lemma substring_whole (s : string) : String.substring 0 (String.length s) s = s.
Proof. induction s as [| c s IH]; simpl; [reflexivity | rewrite IH; reflexivity]. Qed.

Lemma slice_substring (s : string) (i n : nat) :
  types.slice s i (i + n) = String.substring i n s.
Proof. unfold types.slice. f_equal. lia. Qed.

Lemma hasSubstring_loop_true (n i : nat) (s substr : string) :
  types.hasSubstring_loop n i s substr = true
  <-> exists j : nat,
        (i <= j < i + n)%nat /\ String.substring j (String.length substr) s = substr.
Proof.
  revert i. induction n as [| n IH]; intros i; simpl.
  - split; [discriminate | intros (j & Hj & _); lia].
  - rewrite slice_substring.
    destruct (String.eqb_spec (String.substring i (String.length substr) s) substr)
      as [Heq | Hne].
    + split; [intros _ | reflexivity]. exists i. split; [lia | exact Heq].
    + rewrite IH. split; intros (j & Hj & Hs).
      * exists j. split; [lia | exact Hs].
      * exists j. split; [| exact Hs].
        destruct (Nat.eq_dec j i) as [-> | Hji]; [contradiction | lia].
Qed.

Lemma contains_occurs (s substr : string) :
  types.contains s substr = true <-> text.occurs substr s.
Proof.
  unfold types.contains, types.hasSubstring, text.occurs.
  destruct (Nat.leb_spec (String.length substr) (String.length s)) as [Hle | Hgt];
    simpl.
  2: { split; [discriminate | intros (i & Hi & _); lia]. }
  destruct (String.eqb_spec s substr) as [-> | Hne]; simpl.
  { split; [intros _ | reflexivity]. exists 0%nat. split; [lia | apply substring_whole]. }
  destruct (Nat.ltb_spec (String.length substr) (String.length s)) as [Hlt | Hge];
    simpl.
  - rewrite !orb_true_iff, hasSubstring_loop_true.
    change (types.slice s 0 (String.length substr))
      with (types.slice s 0 (0 + String.length substr)).
    replace (types.slice s (String.length s - String.length substr) (String.length s))
      with (String.substring (String.length s - String.length substr)
              (String.length substr) s)
      by (unfold types.slice; f_equal; lia).
    rewrite slice_substring, !String.eqb_eq.
    split.
    + intros [[Hp | Hs] | (j & Hj & Hs)].
      * exists 0%nat. split; [lia | exact Hp].
      * exists (String.length s - String.length substr)%nat. split; [lia | exact Hs].
      * exists j. split; [lia | exact Hs].
    + intros (i & Hi & Hs). right. exists i. split; [lia | exact Hs].
  - split; [discriminate |]. intros (i & Hi & Hs).
    assert (i = 0%nat) by lia. subst i.
    assert (Hlen : String.length substr = String.length s) by lia.
    rewrite Hlen, substring_whole in Hs. congruence.
Qed.

(** X13.  An error that is not nil is retryable exactly when one of the
    six patterns occurs in its message, byte for byte, at some position:
    the hand-written search of [contains] and [hasSubstring] misses no
    occurrence and reports none that is not there. *)
Lemma IsRetryableError_occurs (msg : string) :
  types.IsRetryableError (Some msg) = true
  <-> exists pattern, In pattern types.retryablePatterns /\ text.occurs pattern msg.
Proof.
  unfold types.IsRetryableError. rewrite existsb_exists.
  split; intros (p & Hin & Hp); exists p; (split; [exact Hin |]);
    apply contains_occurs; exact Hp.
Qed.

(** ** New jobs *)

(** C9.  A request whose max_attempts is zero or negative gets the default
    of 3, a positive one is kept; the job is Pending with no attempts, and
    created, updated and (unless the request says otherwise) scheduled at
    the same instant. *)
Theorem NewJob_defaults (now : time.Time) (random : list Byte.byte)
  (req : types.JobRequest.t) :
  types.MaxAttempts (types.NewJob now random req)
    = (if decide (types.JobRequest.MaxAttempts req <= 0) then 3
       else types.JobRequest.MaxAttempts req)
  /\ types.Status (types.NewJob now random req) = types.JobStatusPending
  /\ types.Attempts (types.NewJob now random req) = 0
  /\ types.CreatedAt (types.NewJob now random req) = now
  /\ types.UpdatedAt (types.NewJob now random req) = now
  /\ types.ScheduledAt (types.NewJob now random req)
       = default now (types.JobRequest.ScheduledAt req).
Proof.
  unfold types.NewJob.
  destruct (types.JobRequest.ScheduledAt req) as [t |];
    destruct (Z.ltb_spec 0 (types.JobRequest.MaxAttempts req));
    destruct (decide (types.JobRequest.MaxAttempts req <= 0));
    simpl; repeat split; try reflexivity; lia.
Qed.

(** ** The broker's [FailJob] *)

Ltac run_world :=
  unfold mbind, sys.M_bind, mret, sys.M_ret, sys.get_redis, sys.put_redis,
    sys.get_db, sys.put_db, sys.Now, sys.run; simpl.

Lemma FailJob_missing (w : sys.World) (jobID errorMsg : string) :
  sys.jobs (sys.redis w) !! jobID = None ->
  queue.FailJob jobID errorMsg w = (Some ("job not found: " ++ jobID), w).
Proof.
  intros Hjob. unfold queue.FailJob, queue.GetJob, queue.Get. run_world.
  rewrite Hjob. reflexivity.
Qed.

Lemma FailJob_retry (w : sys.World) (jobID errorMsg : string) (job : types.Job) :
  sys.jobs (sys.redis w) !! jobID = Some job ->
  Go.add64 (types.Attempts job) 1 < types.MaxAttempts job ->
  queue.FailJob jobID errorMsg w = (None, effect.retry w job errorMsg).
Proof.
  intros Hjob Hlt. unfold queue.FailJob, queue.GetJob, queue.Get. run_world.
  rewrite Hjob. simpl.
  destruct (Z.ltb_spec (Go.add64 (types.Attempts job) 1) (types.MaxAttempts job));
    [| lia].
  unfold queue.requeueJobWithDelay, queue.Set_, queue.LPush. run_world.
  reflexivity.
Qed.

Lemma FailJob_exhausted (w : sys.World) (jobID errorMsg : string) (job : types.Job) :
  sys.jobs (sys.redis w) !! jobID = Some job ->
  types.MaxAttempts job <= Go.add64 (types.Attempts job) 1 ->
  queue.FailJob jobID errorMsg w = (None, effect.exhaust w jobID job errorMsg).
Proof.
  intros Hjob Hge. unfold queue.FailJob, queue.GetJob, queue.Get. run_world.
  rewrite Hjob. simpl.
  destruct (Z.ltb_spec (Go.add64 (types.Attempts job) 1) (types.MaxAttempts job));
    [lia |].
  reflexivity.
Qed.

(** [FailJob] returns nil exactly when Redis holds the record. *)
Lemma FailJob_succeeds (w : sys.World) (jobID errorMsg : string) :
  fst (queue.FailJob jobID errorMsg w) = None
  <-> is_Some (sys.jobs (sys.redis w) !! jobID).
Proof.
  destruct (sys.jobs (sys.redis w) !! jobID) as [job |] eqn:Hjob.
  - split; [eauto |]. intros _.
    destruct (Z.lt_ge_cases (Go.add64 (types.Attempts job) 1) (types.MaxAttempts job)).
    + rewrite (FailJob_retry _ _ _ job); auto.
    + rewrite (FailJob_exhausted _ _ _ job); auto.
  - rewrite FailJob_missing by assumption. simpl.
    split; [discriminate | intros [? ?]; discriminate].
Qed.

(** The store is out of [FailJob]'s reach. *)
Lemma FailJob_db (w : sys.World) (jobID errorMsg : string) :
  sys.db (snd (queue.FailJob jobID errorMsg w)) = sys.db w.
Proof.
  destruct (sys.jobs (sys.redis w) !! jobID) as [job |] eqn:Hjob.
  - destruct (Z.lt_ge_cases (Go.add64 (types.Attempts job) 1) (types.MaxAttempts job)).
    + rewrite (FailJob_retry _ _ _ job); auto.
    + rewrite (FailJob_exhausted _ _ _ job); auto.
  - rewrite FailJob_missing by assumption. reflexivity.
Qed.

(** C1.  For a job Redis holds, [FailJob] succeeds and leaves a record with
    one more attempt, the error and the time of the update.  When the new
    count is below max_attempts the record is Retrying and the id is pushed
    on the pending list; otherwise it is Failed with completed_at set and
    the pending list is as it was.  With max_attempts = 1 every failure is
    of the second kind. *)
Theorem FailJob_outcome (w : sys.World) (jobID errorMsg : string) (job : types.Job) :
  sys.jobs (sys.redis w) !! jobID = Some job ->
  types.ID job = jobID ->
  Go.is_int64 (types.Attempts job) ->
  types.Attempts job < Go.max_int64 ->
  exists job' : types.Job,
    fst (queue.FailJob jobID errorMsg w) = None
    /\ sys.jobs (sys.redis (snd (queue.FailJob jobID errorMsg w))) !! jobID = Some job'
    /\ types.Attempts job' = types.Attempts job + 1
    /\ types.MaxAttempts job' = types.MaxAttempts job
    /\ types.Error job' = errorMsg
    /\ types.UpdatedAt job' = effect.first_reading w
    /\ (types.Attempts job + 1 < types.MaxAttempts job ->
        types.Status job' = types.JobStatusRetrying
        /\ sys.pending (sys.redis (snd (queue.FailJob jobID errorMsg w)))
           = jobID :: sys.pending (sys.redis w))
    /\ (types.MaxAttempts job <= types.Attempts job + 1 ->
        types.Status job' = types.JobStatusFailed
        /\ types.CompletedAt job' = Some (effect.second_reading w)
        /\ sys.pending (sys.redis (snd (queue.FailJob jobID errorMsg w)))
           = sys.pending (sys.redis w))
    /\ (types.MaxAttempts job = 1 -> 0 <= types.Attempts job ->
        types.Status job' = types.JobStatusFailed
        /\ types.CompletedAt job' = Some (effect.second_reading w)).
Proof.
  intros Hjob Hkey Hint Hmax.
  pose proof (add64_succ _ Hint Hmax) as Hinc.
  destruct (Z.lt_ge_cases (types.Attempts job + 1) (types.MaxAttempts job)) as [Hlt | Hge].
  - rewrite (FailJob_retry w jobID errorMsg job) by (rewrite ?Hinc; assumption).
    exists (effect.retried job errorMsg (effect.first_reading w) (effect.second_reading w)).
    simpl. rewrite Hkey, lookup_insert_eq, Hinc.
    repeat split; try reflexivity; intros; lia.
  - rewrite (FailJob_exhausted w jobID errorMsg job) by (rewrite ?Hinc; assumption).
    exists (effect.exhausted job errorMsg (effect.first_reading w) (effect.second_reading w)).
    simpl. rewrite Hkey, lookup_insert_eq, Hinc.
    repeat split; try reflexivity; intros; lia.
Qed.

Lemma FailJob_outcome_witness :
  (sys.jobs (sys.redis scenario.world_leased) !! scenario.id_webhook
     = Some scenario.job_leased
   /\ types.ID scenario.job_leased = scenario.id_webhook
   /\ Go.is_int64 (types.Attempts scenario.job_leased)
   /\ types.Attempts scenario.job_leased < Go.max_int64)
  /\ exists job' : types.Job,
       fst (queue.FailJob scenario.id_webhook "boom" scenario.world_leased) = None
       /\ sys.jobs (sys.redis (snd (queue.FailJob scenario.id_webhook "boom"
                                      scenario.world_leased)))
            !! scenario.id_webhook = Some job'
       /\ types.Attempts job' = types.Attempts scenario.job_leased + 1
       /\ types.MaxAttempts job' = types.MaxAttempts scenario.job_leased
       /\ types.Error job' = "boom"
       /\ types.UpdatedAt job' = effect.first_reading scenario.world_leased
       /\ (types.Attempts scenario.job_leased + 1 < types.MaxAttempts scenario.job_leased ->
           types.Status job' = types.JobStatusRetrying
           /\ sys.pending (sys.redis (snd (queue.FailJob scenario.id_webhook "boom"
                                             scenario.world_leased)))
              = scenario.id_webhook :: sys.pending (sys.redis scenario.world_leased))
       /\ (types.MaxAttempts scenario.job_leased <= types.Attempts scenario.job_leased + 1 ->
           types.Status job' = types.JobStatusFailed
           /\ types.CompletedAt job' = Some (effect.second_reading scenario.world_leased)
           /\ sys.pending (sys.redis (snd (queue.FailJob scenario.id_webhook "boom"
                                             scenario.world_leased)))
              = sys.pending (sys.redis scenario.world_leased))
       /\ (types.MaxAttempts scenario.job_leased = 1 ->
           0 <= types.Attempts scenario.job_leased ->
           types.Status job' = types.JobStatusFailed
           /\ types.CompletedAt job' = Some (effect.second_reading scenario.world_leased)).
Proof.
  assert (H1 : sys.jobs (sys.redis scenario.world_leased) !! scenario.id_webhook
               = Some scenario.job_leased) by (vm_compute; reflexivity).
  assert (H2 : types.ID scenario.job_leased = scenario.id_webhook) by reflexivity.
  assert (H3 : Go.is_int64 (types.Attempts scenario.job_leased))
    by (vm_compute; split; discriminate).
  assert (H4 : types.Attempts scenario.job_leased < Go.max_int64)
    by (vm_compute; reflexivity).
  split; [auto |].
  exact (FailJob_outcome scenario.world_leased scenario.id_webhook "boom"
           scenario.job_leased H1 H2 H3 H4).
Defined.

(** C2.  On the leased job of the scenario, which has attempts to spare,
    [FailJob] returns nil and marks the job Retrying; the id is pushed on
    the pending list and is still on the processing list, and neither the
    processing nor the pending counter has moved. *)
Theorem FailJob_retry_keeps_processing :
  fst (queue.FailJob scenario.id_webhook "boom" scenario.world_leased) = None
  /\ types.Status <$>
       sys.jobs (sys.redis (snd (queue.FailJob scenario.id_webhook "boom"
                                   scenario.world_leased))) !! scenario.id_webhook
     = Some types.JobStatusRetrying
  /\ sys.pending (sys.redis (snd (queue.FailJob scenario.id_webhook "boom"
                                    scenario.world_leased)))
     = [scenario.id_webhook]
  /\ sys.processing (sys.redis scenario.world_leased) = [scenario.id_webhook]
  /\ sys.processing (sys.redis (snd (queue.FailJob scenario.id_webhook "boom"
                                       scenario.world_leased)))
     = [scenario.id_webhook]
  /\ sys.stats (sys.redis scenario.world_leased) !! "processing" = Some 1
  /\ sys.stats (sys.redis (snd (queue.FailJob scenario.id_webhook "boom"
                                  scenario.world_leased))) !! "processing" = Some 1
  /\ sys.stats (sys.redis scenario.world_leased) !! "pending" = Some 0
  /\ sys.stats (sys.redis (snd (queue.FailJob scenario.id_webhook "boom"
                                  scenario.world_leased))) !! "pending" = Some 0.
Proof. vm_compute. repeat split. Qed.

(** The terminal branch does what C2 says of it: the id leaves the
    processing list and the processing counter goes down by one. *)
Lemma FailJob_exhausted_leaves_processing (w : sys.World) (jobID errorMsg : string)
  (job : types.Job) :
  sys.jobs (sys.redis w) !! jobID = Some job ->
  types.MaxAttempts job <= Go.add64 (types.Attempts job) 1 ->
  sys.processing (sys.redis (snd (queue.FailJob jobID errorMsg w)))
    = queue.remove_first jobID (sys.processing (sys.redis w))
  /\ sys.stats (sys.redis (snd (queue.FailJob jobID errorMsg w))) !! "processing"
     = Some (default 0 (sys.stats (sys.redis w) !! "processing") - 1).
Proof.
  intros Hjob Hge. rewrite (FailJob_exhausted w jobID errorMsg job) by assumption.
  simpl. split; [reflexivity |].
  rewrite lookup_insert_ne by discriminate. rewrite lookup_insert_eq.
  f_equal.
Qed.

(** The retry branch, in every world: the processing list and all the
    counters are as before. *)
Lemma FailJob_retry_frame (w : sys.World) (jobID errorMsg : string) (job : types.Job) :
  sys.jobs (sys.redis w) !! jobID = Some job ->
  Go.add64 (types.Attempts job) 1 < types.MaxAttempts job ->
  sys.processing (sys.redis (snd (queue.FailJob jobID errorMsg w)))
    = sys.processing (sys.redis w)
  /\ sys.stats (sys.redis (snd (queue.FailJob jobID errorMsg w)))
     = sys.stats (sys.redis w).
Proof.
  intros Hjob Hlt. rewrite (FailJob_retry w jobID errorMsg job) by assumption.
  split; reflexivity.
Qed.

(** ** The store *)

Lemma UpdateJob_row (w : sys.World) (job row : types.Job) :
  sys.jobs_table (sys.db w) !! types.ID job = Some row ->
  storage.UpdateJob job w
  = (None,
     sys.mkWorld (sys.redis w)
       (sys.mkPostgres (<[types.ID job := storage.update_row job row]>
                          (sys.jobs_table (sys.db w)))
          (sys.workers_table (sys.db w)))
       (sys.clock w) (sys.ticks w)).
Proof.
  intros Hrow. unfold storage.UpdateJob. run_world. rewrite Hrow. reflexivity.
Qed.

(** ** Cancelling a job *)

(** C8.  When Redis holds a job that is neither Completed nor Failed (the
    case in which the broker's [FailJob] succeeds), [cancelJob] answers 200
    and leaves the row of the job in the store with status Failed and the
    error of the cancellation, whatever [FailJob] decided: if the job had
    attempts to spare, its record in Redis is Retrying while its row says
    Failed. *)
Theorem cancelJob_store_failed (w : sys.World) (jobID : string) (job row : types.Job) :
  jobID <> EmptyString ->
  sys.jobs (sys.redis w) !! jobID = Some job ->
  types.ID job = jobID ->
  types.Status job <> types.JobStatusCompleted ->
  types.Status job <> types.JobStatusFailed ->
  sys.jobs_table (sys.db w) !! jobID = Some row ->
  fst (queue.FailJob jobID "Job cancelled by user" w) = None
  /\ fst (api.cancelJob jobID w)
     = api.JobResponse api.StatusOK
         (types.with_Error "Job cancelled by user"
            (types.with_Status types.JobStatusFailed job))
         "Job cancelled successfully"
  /\ (exists row' : types.Job,
        sys.jobs_table (sys.db (snd (api.cancelJob jobID w))) !! jobID = Some row'
        /\ types.Status row' = types.JobStatusFailed
        /\ types.Error row' = "Job cancelled by user"
        /\ types.Attempts row' = types.Attempts job)
  /\ (Go.add64 (types.Attempts job) 1 < types.MaxAttempts job ->
      types.Status <$> sys.jobs (sys.redis (snd (api.cancelJob jobID w))) !! jobID
      = Some types.JobStatusRetrying).
Proof.
  intros Hid Hjob Hkey Hc Hf Hrow.
  assert (Hok : fst (queue.FailJob jobID "Job cancelled by user" w) = None)
    by (apply FailJob_succeeds; rewrite Hjob; eauto).
  split; [exact Hok |].
  unfold api.cancelJob.
  assert (He : types.is_empty jobID = false) by (apply String.eqb_neq; exact Hid).
  rewrite He.
  unfold queue.GetJob, queue.Get. run_world. rewrite Hjob. simpl.
  rewrite !bool_decide_eq_false_2 by assumption. simpl.
  pose proof (FailJob_db w jobID "Job cancelled by user") as Hdb.
  destruct (queue.FailJob jobID "Job cancelled by user" w) as [err w1] eqn:HF.
  simpl in Hok, Hdb. subst err.
  assert (Hrow1 : sys.jobs_table (sys.db w1)
                    !! types.ID (types.with_Error "Job cancelled by user"
                                   (types.with_Status types.JobStatusFailed job))
                  = Some row) by (simpl; rewrite Hdb, Hkey; exact Hrow).
  rewrite (UpdateJob_row w1 _ row Hrow1). simpl.
  split; [reflexivity |]. split.
  - eexists. rewrite Hkey, lookup_insert_eq. repeat split; reflexivity.
  - intros Hlt. rewrite (FailJob_retry w jobID _ job Hjob Hlt) in HF.
    injection HF as <-. simpl. rewrite Hkey, lookup_insert_eq. reflexivity.
Qed.

Lemma cancelJob_store_failed_witness :
  (scenario.id_webhook <> EmptyString
   /\ sys.jobs (sys.redis scenario.world_leased) !! scenario.id_webhook
      = Some scenario.job_leased
   /\ types.ID scenario.job_leased = scenario.id_webhook
   /\ types.Status scenario.job_leased <> types.JobStatusCompleted
   /\ types.Status scenario.job_leased <> types.JobStatusFailed
   /\ sys.jobs_table (sys.db scenario.world_leased) !! scenario.id_webhook
      = Some scenario.job_webhook)
  /\ fst (queue.FailJob scenario.id_webhook "Job cancelled by user"
            scenario.world_leased) = None
  /\ fst (api.cancelJob scenario.id_webhook scenario.world_leased)
     = api.JobResponse api.StatusOK
         (types.with_Error "Job cancelled by user"
            (types.with_Status types.JobStatusFailed scenario.job_leased))
         "Job cancelled successfully"
  /\ (exists row' : types.Job,
        sys.jobs_table (sys.db (snd (api.cancelJob scenario.id_webhook
                                       scenario.world_leased)))
          !! scenario.id_webhook = Some row'
        /\ types.Status row' = types.JobStatusFailed
        /\ types.Error row' = "Job cancelled by user"
        /\ types.Attempts row' = types.Attempts scenario.job_leased)
  /\ (Go.add64 (types.Attempts scenario.job_leased) 1
        < types.MaxAttempts scenario.job_leased ->
      types.Status <$>
        sys.jobs (sys.redis (snd (api.cancelJob scenario.id_webhook
                                    scenario.world_leased))) !! scenario.id_webhook
      = Some types.JobStatusRetrying).
Proof.
  assert (H1 : scenario.id_webhook <> EmptyString) by (vm_compute; discriminate).
  assert (H2 : sys.jobs (sys.redis scenario.world_leased) !! scenario.id_webhook
               = Some scenario.job_leased) by (vm_compute; reflexivity).
  assert (H3 : types.ID scenario.job_leased = scenario.id_webhook) by reflexivity.
  assert (H4 : types.Status scenario.job_leased <> types.JobStatusCompleted)
    by (vm_compute; discriminate).
  assert (H5 : types.Status scenario.job_leased <> types.JobStatusFailed)
    by (vm_compute; discriminate).
  assert (H6 : sys.jobs_table (sys.db scenario.world_leased) !! scenario.id_webhook
               = Some scenario.job_webhook) by (vm_compute; reflexivity).
  split; [auto 10 |].
  exact (cancelJob_store_failed scenario.world_leased scenario.id_webhook
           scenario.job_leased scenario.job_webhook H1 H2 H3 H4 H5 H6).
Defined.

(** ** Leasing a job whose record is gone *)

Lemma remove_first_head (v : string) (l : list string) :
  queue.remove_first v (v :: l) = l.
Proof. simpl. rewrite String.eqb_refl. reflexivity. Qed.

(** C7, as the code has it.  When the id at the tail of the pending list
    has no record in Redis, [DequeueJob] takes the id off the pending list,
    leaves the processing list, the records and the counters as they were,
    and returns no job together with the error of the lookup. *)
Theorem DequeueJob_record_missing (w : sys.World) (workerID jobID : string)
  (front : list string) :
  sys.pending (sys.redis w) = (front ++ [jobID])%list ->
  sys.jobs (sys.redis w) !! jobID = None ->
  queue.DequeueJob workerID w
  = ((None, Some ("job not found: " ++ jobID)),
     sys.mkWorld
       (sys.mkRedis front (sys.processing (sys.redis w)) (sys.jobs (sys.redis w))
          (sys.stats (sys.redis w)))
       (sys.db w) (sys.clock w) (sys.ticks w)).
Proof.
  intros Hpending Hjob.
  unfold queue.DequeueJob, queue.BRPopLPush, queue.GetJob, queue.Get, queue.LRem1.
  run_world. rewrite Hpending, List.rev_app_distr. simpl.
  rewrite Hjob. simpl.
  rewrite String.eqb_refl, List.rev_involutive. reflexivity.
Qed.

Lemma DequeueJob_record_missing_witness :
  (sys.pending (sys.redis scenario.world_expired) = ([] ++ [scenario.id_webhook])%list
   /\ sys.jobs (sys.redis scenario.world_expired) !! scenario.id_webhook = None)
  /\ queue.DequeueJob "worker-1" scenario.world_expired
     = ((None, Some ("job not found: " ++ scenario.id_webhook)),
        sys.mkWorld
          (sys.mkRedis [] (sys.processing (sys.redis scenario.world_expired))
             (sys.jobs (sys.redis scenario.world_expired))
             (sys.stats (sys.redis scenario.world_expired)))
          (sys.db scenario.world_expired) (sys.clock scenario.world_expired)
          (sys.ticks scenario.world_expired)).
Proof.
  assert (H1 : sys.pending (sys.redis scenario.world_expired)
               = ([] ++ [scenario.id_webhook])%list) by (vm_compute; reflexivity).
  assert (H2 : sys.jobs (sys.redis scenario.world_expired) !! scenario.id_webhook = None)
    by (vm_compute; reflexivity).
  split; [auto |].
  exact (DequeueJob_record_missing scenario.world_expired "worker-1"
           scenario.id_webhook [] H1 H2).
Defined.

(** C7 as written fails: the lease of the expired job of the scenario
    moved its id from pending to processing, found no record, and comes
    back with an error, which a timeout on the empty queue does not; the
    worker's [processNextJob] passes the difference on. *)
Lemma DequeueJob_record_missing_returns_error :
  sys.pending (sys.redis scenario.world_expired) = [scenario.id_webhook]
  /\ sys.jobs (sys.redis scenario.world_expired) !! scenario.id_webhook = None
  /\ fst (queue.DequeueJob "worker-1" scenario.world_expired)
     = (None, Some "job not found: 000102030405060708090a0b0c0d0e0f")
  /\ fst (queue.DequeueJob "worker-1" scenario.world_expired) <> (None, None)
  /\ fst (queue.DequeueJob "worker-1" scenario.world_empty) = (None, None)
  /\ fst (worker.processNextJob scenario.failing_worker scenario.world_expired)
     = Some "failed to dequeue job: job not found: 000102030405060708090a0b0c0d0e0f"
  /\ fst (worker.processNextJob scenario.failing_worker scenario.world_empty) = None.
Proof. vm_compute. repeat split; discriminate. Qed.

(** ** The worker's report of a failed job *)

Lemma DequeueJob_db (w : sys.World) (workerID : string) :
  sys.db (snd (queue.DequeueJob workerID w)) = sys.db w.
Proof.
  unfold queue.DequeueJob, queue.BRPopLPush, queue.GetJob, queue.Get,
    queue.LRem1, queue.UpdateJob, queue.Set_, queue.HIncrBy.
  run_world.
  destruct (rev (sys.pending (sys.redis w))) as [| v front]; [reflexivity |].
  simpl. destruct (sys.jobs (sys.redis w) !! v); reflexivity.
Qed.

(** C3, as the code has it.  When the handler of a leased job returns an
    error, the row the worker leaves in the store has status Failed,
    whatever the broker decided; it carries the error, one more attempt and
    the time of the update, and completed_at is set to that time when the
    new count has reached max_attempts and is the leased job's otherwise. *)
Theorem processNextJob_failure_row (wk : worker.Worker) (w w1 : sys.World)
  (job row : types.Job) (result : types.RawMessage) (e : string) :
  queue.DequeueJob (worker.ID wk) w = ((Some job, None), w1) ->
  worker.ProcessJob (worker.registry wk) job = (result, Some e) ->
  sys.jobs_table (sys.db w) !! types.ID job = Some row ->
  Go.is_int64 (types.Attempts job) ->
  types.Attempts job < Go.max_int64 ->
  exists (row' : types.Job) (now : time.Time),
    sys.jobs_table (sys.db (snd (worker.processNextJob wk w))) !! types.ID job
      = Some row'
    /\ types.Status row' = types.JobStatusFailed
    /\ types.Error row' = e
    /\ types.Attempts row' = types.Attempts job + 1
    /\ types.UpdatedAt row' = now
    /\ (types.Attempts job + 1 < types.MaxAttempts job ->
        types.CompletedAt row' = types.CompletedAt job)
    /\ (types.MaxAttempts job <= types.Attempts job + 1 ->
        types.CompletedAt row' = Some now).
Proof.
  intros HD HP Hrow Hint Hmax.
  pose proof (add64_succ _ Hint Hmax) as Hinc.
  pose proof (DequeueJob_db w (worker.ID wk)) as Hdb1.
  rewrite HD in Hdb1. simpl in Hdb1.
  unfold worker.processNextJob. run_world. rewrite HD. simpl.
  unfold worker.updateWorkerStatus, storage.RegisterWorker. run_world.
  rewrite HP. simpl.
  match goal with
  | |- context [queue.FailJob ?i ?m ?w0] =>
      pose proof (FailJob_db w0 i m) as Hdb2;
      destruct (queue.FailJob i m w0) as [err w2]
  end.
  simpl in Hdb2. rewrite Hinc.
  exists (storage.update_row
            (if types.MaxAttempts job <=? types.Attempts job + 1
             then types.with_CompletedAt (Some (sys.clock w2 (sys.ticks w2)))
                    (types.with_UpdatedAt (sys.clock w2 (sys.ticks w2))
                       (types.with_Attempts (types.Attempts job + 1)
                          (types.with_Error e
                             (types.with_Status types.JobStatusFailed job))))
             else types.with_UpdatedAt (sys.clock w2 (sys.ticks w2))
                    (types.with_Attempts (types.Attempts job + 1)
                       (types.with_Error e
                          (types.with_Status types.JobStatusFailed job))))
            row),
         (sys.clock w2 (sys.ticks w2)).
  split.
  - unfold storage.UpdateJob. run_world.
    destruct (Z.leb_spec (types.MaxAttempts job) (types.Attempts job + 1));
      simpl; rewrite Hdb2; simpl; rewrite Hdb1, Hrow; simpl;
      rewrite lookup_insert_eq; reflexivity.
  - destruct (Z.leb_spec (types.MaxAttempts job) (types.Attempts job + 1));
      simpl; repeat split; try reflexivity; intros; lia.
Qed.

Lemma processNextJob_failure_row_witness :
  (queue.DequeueJob (worker.ID scenario.failing_worker) scenario.world_queued
     = ((Some scenario.job_leased, None), scenario.world_leased)
   /\ worker.ProcessJob (worker.registry scenario.failing_worker) scenario.job_leased
      = (EmptyString, Some "connection refused")
   /\ sys.jobs_table (sys.db scenario.world_queued) !! types.ID scenario.job_leased
      = Some scenario.job_webhook
   /\ Go.is_int64 (types.Attempts scenario.job_leased)
   /\ types.Attempts scenario.job_leased < Go.max_int64)
  /\ exists (row' : types.Job) (now : time.Time),
       sys.jobs_table
         (sys.db (snd (worker.processNextJob scenario.failing_worker
                         scenario.world_queued)))
         !! types.ID scenario.job_leased = Some row'
       /\ types.Status row' = types.JobStatusFailed
       /\ types.Error row' = "connection refused"
       /\ types.Attempts row' = types.Attempts scenario.job_leased + 1
       /\ types.UpdatedAt row' = now
       /\ (types.Attempts scenario.job_leased + 1
             < types.MaxAttempts scenario.job_leased ->
           types.CompletedAt row' = types.CompletedAt scenario.job_leased)
       /\ (types.MaxAttempts scenario.job_leased
             <= types.Attempts scenario.job_leased + 1 ->
           types.CompletedAt row' = Some now).
Proof.
  assert (H1 : queue.DequeueJob (worker.ID scenario.failing_worker)
                 scenario.world_queued
               = ((Some scenario.job_leased, None), scenario.world_leased))
    by (vm_compute; reflexivity).
  assert (H2 : worker.ProcessJob (worker.registry scenario.failing_worker)
                 scenario.job_leased
               = (EmptyString, Some "connection refused"))
    by (vm_compute; reflexivity).
  assert (H3 : sys.jobs_table (sys.db scenario.world_queued)
                 !! types.ID scenario.job_leased
               = Some scenario.job_webhook) by (vm_compute; reflexivity).
  assert (H4 : Go.is_int64 (types.Attempts scenario.job_leased))
    by (vm_compute; split; discriminate).
  assert (H5 : types.Attempts scenario.job_leased < Go.max_int64)
    by (vm_compute; reflexivity).
  split; [auto 10 |].
  exact (processNextJob_failure_row scenario.failing_worker scenario.world_queued
           scenario.world_leased scenario.job_leased scenario.job_webhook
           EmptyString "connection refused" H1 H2 H3 H4 H5).
Defined.

(** C3 as written fails: the webhook job of the scenario has used one of
    its three attempts when its handler fails; the broker marks it
    Retrying, and the row the worker writes says Failed. *)
Lemma processNextJob_row_not_retrying :
  fst (queue.DequeueJob (worker.ID scenario.failing_worker) scenario.world_queued)
    = (Some scenario.job_leased, None)
  /\ snd (worker.ProcessJob (worker.registry scenario.failing_worker)
            scenario.job_leased) = Some "connection refused"
  /\ types.Attempts scenario.job_leased + 1 < types.MaxAttempts scenario.job_leased
  /\ types.Status <$>
       sys.jobs (sys.redis (snd (worker.processNextJob scenario.failing_worker
                                   scenario.world_queued))) !! scenario.id_webhook
     = Some types.JobStatusRetrying
  /\ types.Status <$>
       sys.jobs_table (sys.db (snd (worker.processNextJob scenario.failing_worker
                                      scenario.world_queued))) !! scenario.id_webhook
     = Some types.JobStatusFailed
  /\ types.Status <$>
       sys.jobs_table (sys.db (snd (worker.processNextJob scenario.failing_worker
                                      scenario.world_queued))) !! scenario.id_webhook
     <> Some types.JobStatusRetrying.
Proof. vm_compute. repeat split; discriminate. Qed.

(** ** Validation *)

Lemma is_empty_false (s : string) : types.is_empty s = false <-> s <> EmptyString.
Proof. unfold types.is_empty. apply String.eqb_neq. Qed.

Lemma is_empty_true (s : string) : types.is_empty s = true <-> s = EmptyString.
Proof. unfold types.is_empty. apply String.eqb_eq. Qed.

Lemma length_zero_empty (s : string) :
  Nat.eqb (String.length s) 0 = true <-> s = EmptyString.
Proof.
  destruct s; simpl; split; intros H; try reflexivity; discriminate.
Qed.

Lemma length_eqb_zero (l : list Z) : Nat.eqb (List.length l) 0 = true <-> l = [].
Proof.
  destruct l; simpl; split; intros H; try reflexivity; discriminate.
Qed.

Ltac case_empty s :=
  let E := fresh "E" in
  destruct (types.is_empty s) eqn:E;
  [ apply is_empty_true in E | apply is_empty_false in E ].

(** A branch that returns an error: no disjunct of the characterisation
    can hold. *)
Ltac reject :=
  split; [discriminate |];
  intros (_ & _ & [Hc | [Hc | [Hc | Hc]]]);
  destruct Hc as (Hty & q & Hq & Hrest);
  first [ discriminate Hty | contradiction | (try destruct Hrest); congruence ].

(** A branch that returns nil. *)
Ltac accept :=
  split; [intros _ | reflexivity];
  split; [assumption |]; split; [assumption |].

(** C6, as the code has it.  A request is accepted exactly when its type is
    one of the four, its payload is not empty and reads into the schema of
    the type without error, and the required fields of the schema are not
    empty after that: to and subject for email, image_url and a non-empty
    sizes for image_resize, url for webhook, export_type and query for
    data_export.  In every other case an error is returned. *)
Theorem ValidateJobRequest_ok_iff (req : types.JobRequest.t) :
  types.ValidateJobRequest req = None
  <-> types.JobRequest.Type_ req <> EmptyString
      /\ types.JobRequest.Payload req <> EmptyString
      /\ ((types.JobRequest.Type_ req = types.JobTypeEmail
           /\ exists p,
                json.Unmarshal types.EmailPayload.fields
                  (types.JobRequest.Payload req) types.EmailPayload.zero = (p, None)
                /\ types.EmailPayload.To p <> EmptyString
                /\ types.EmailPayload.Subject p <> EmptyString)
          \/ (types.JobRequest.Type_ req = types.JobTypeImageResize
              /\ exists p,
                   json.Unmarshal types.ImageResizePayload.fields
                     (types.JobRequest.Payload req) types.ImageResizePayload.zero
                     = (p, None)
                   /\ types.ImageResizePayload.ImageURL p <> EmptyString
                   /\ types.ImageResizePayload.Sizes p <> [])
          \/ (types.JobRequest.Type_ req = types.JobTypeWebhook
              /\ exists p,
                   json.Unmarshal types.WebhookPayload.fields
                     (types.JobRequest.Payload req) types.WebhookPayload.zero
                     = (p, None)
                   /\ types.WebhookPayload.URL p <> EmptyString)
          \/ (types.JobRequest.Type_ req = types.JobTypeDataExport
              /\ exists p,
                   json.Unmarshal types.DataExportPayload.fields
                     (types.JobRequest.Payload req) types.DataExportPayload.zero
                     = (p, None)
                   /\ types.DataExportPayload.ExportType p <> EmptyString
                   /\ types.DataExportPayload.Query p <> EmptyString)).
Proof.
  unfold types.ValidateJobRequest, types.validatePayloadStructure, types.known_type.
  destruct req as [ty payload ma sa]. simpl.
  case_empty ty.
  { split; [discriminate | intros [H _]; contradiction]. }
  destruct (Nat.eqb (String.length payload) 0) eqn:El.
  { apply length_zero_empty in El.
    split; [discriminate | intros (_ & H & _); contradiction]. }
  assert (Hp : payload <> EmptyString).
  { intros ->. simpl in El. discriminate. }
  destruct (String.eqb_spec ty types.JobTypeEmail) as [-> | Hn1].
  { simpl.
    destruct (json.Unmarshal types.EmailPayload.fields payload types.EmailPayload.zero)
      as [p [err |]] eqn:Hu; [reject |].
    case_empty (types.EmailPayload.To p); [reject |].
    case_empty (types.EmailPayload.Subject p); [reject |].
    accept; left; eauto. }
  destruct (String.eqb_spec ty types.JobTypeImageResize) as [-> | Hn2].
  { simpl.
    destruct (json.Unmarshal types.ImageResizePayload.fields payload
                types.ImageResizePayload.zero) as [p [err |]] eqn:Hu; [reject |].
    case_empty (types.ImageResizePayload.ImageURL p); [reject |].
    destruct (Nat.eqb (List.length (types.ImageResizePayload.Sizes p)) 0) eqn:Es.
    - apply length_eqb_zero in Es. reject.
    - assert (types.ImageResizePayload.Sizes p <> []).
      { intros Hs. rewrite Hs in Es. discriminate. }
      accept; right; left; eauto. }
  destruct (String.eqb_spec ty types.JobTypeWebhook) as [-> | Hn3].
  { simpl.
    destruct (json.Unmarshal types.WebhookPayload.fields payload
                types.WebhookPayload.zero) as [p [err |]] eqn:Hu; [reject |].
    case_empty (types.WebhookPayload.URL p); [reject |].
    accept; right; right; left; eauto. }
  destruct (String.eqb_spec ty types.JobTypeDataExport) as [-> | Hn4].
  { simpl.
    destruct (json.Unmarshal types.DataExportPayload.fields payload
                types.DataExportPayload.zero) as [p [err |]] eqn:Hu; [reject |].
    case_empty (types.DataExportPayload.ExportType p); [reject |].
    case_empty (types.DataExportPayload.Query p); [reject |].
    accept; right; right; right; eauto. }
  simpl. reject.
Qed.

(** C6 as written fails twice.  Sizes that are not positive are accepted,
    since only their number is looked at; and a payload with every required
    field is refused when it does not read into the schema, here for a
    string where a bool is declared. *)
Lemma ValidateJobRequest_counterexample :
  types.ImageResizePayload.Sizes
    (fst (json.Unmarshal types.ImageResizePayload.fields
            (types.JobRequest.Payload scenario.req_bad_sizes)
            types.ImageResizePayload.zero)) = [-1; 0]
  /\ types.ValidateJobRequest scenario.req_bad_sizes = None
  /\ json.parse (types.JobRequest.Payload scenario.req_bad_flag)
     = Some (json.JObject [ ("to", json.JString "a@b");
                            ("subject", json.JString "s");
                            ("html", json.JString "yes") ])
  /\ types.ValidateJobRequest scenario.req_bad_flag
     = Some "invalid email payload: json: cannot unmarshal value into Go struct field".
Proof. vm_compute. repeat split. Qed.

(* ===================================================================== *)
(** * Further properties of the code *)
(* ===================================================================== *)

(** ** The queue operations, one by one *)

Lemma EnqueueJob_run (w : sys.World) (job : types.Job) :
  queue.EnqueueJob job w = (None, effect_ext.enqueue w job).
Proof.
  unfold queue.EnqueueJob, queue.Set_, queue.LPush, queue.HIncrBy. run_world.
  reflexivity.
Qed.

Lemma DequeueJob_empty (w : sys.World) (workerID : string) :
  sys.pending (sys.redis w) = [] ->
  queue.DequeueJob workerID w = ((None, None), w).
Proof.
  intros Hp. unfold queue.DequeueJob, queue.BRPopLPush. run_world.
  rewrite Hp. reflexivity.
Qed.

Lemma DequeueJob_lease (w : sys.World) (workerID jobID : string)
  (front : list string) (job : types.Job) :
  sys.pending (sys.redis w) = (front ++ [jobID])%list ->
  sys.jobs (sys.redis w) !! jobID = Some job ->
  queue.DequeueJob workerID w
  = ((Some (effect_ext.leased job workerID (sys.clock w (sys.ticks w))), None),
     effect_ext.lease w front jobID job workerID).
Proof.
  intros Hp Hjob.
  unfold queue.DequeueJob, queue.BRPopLPush, queue.GetJob, queue.Get,
    queue.UpdateJob, queue.Set_, queue.HIncrBy.
  run_world. rewrite Hp, List.rev_app_distr. simpl.
  rewrite Hjob. simpl. rewrite List.rev_involutive. reflexivity.
Qed.

Lemma CompleteJob_run (w : sys.World) (jobID : string) (result : types.RawMessage)
  (job : types.Job) :
  sys.jobs (sys.redis w) !! jobID = Some job ->
  queue.CompleteJob jobID result w = (None, effect_ext.complete w jobID job result).
Proof.
  intros Hjob.
  unfold queue.CompleteJob, queue.GetJob, queue.Get, queue.Set_, queue.LRem1,
    queue.HIncrBy.
  run_world. rewrite Hjob. reflexivity.
Qed.

Lemma CompleteJob_missing (w : sys.World) (jobID : string) (result : types.RawMessage) :
  sys.jobs (sys.redis w) !! jobID = None ->
  queue.CompleteJob jobID result w = (Some ("job not found: " ++ jobID), w).
Proof.
  intros Hjob. unfold queue.CompleteJob, queue.GetJob, queue.Get. run_world.
  rewrite Hjob. reflexivity.
Qed.

(** Reading a counter after a run of [HINCRBY]s. *)
Ltac counters :=
  unfold effect_ext.counter; simpl; unfold effect_ext.bump;
  repeat first [ rewrite lookup_insert_eq
               | rewrite lookup_insert_ne by discriminate ];
  simpl; try reflexivity; try lia.


(** X2.  A lease hands out the oldest id: when the pending list ends in an
    id with a record, [DequeueJob] returns that job marked Processing for
    the worker, started and updated at the time of the call, with its
    attempts untouched; the record in Redis is the job returned, the id has
    moved to the head of the processing list, and the counters pending and
    processing have moved by one. *)
Theorem DequeueJob_hands_out_oldest (w : sys.World) (workerID jobID : string)
  (front : list string) (job : types.Job) :
  sys.pending (sys.redis w) = (front ++ [jobID])%list ->
  sys.jobs (sys.redis w) !! jobID = Some job ->
  types.ID job = jobID ->
  exists leased : types.Job,
    fst (queue.DequeueJob workerID w) = (Some leased, None)
    /\ types.ID leased = jobID
    /\ types.Status leased = types.JobStatusProcessing
    /\ types.WorkerID leased = workerID
    /\ types.StartedAt leased = Some (sys.clock w (sys.ticks w))
    /\ types.UpdatedAt leased = sys.clock w (sys.ticks w)
    /\ types.Attempts leased = types.Attempts job
    /\ types.MaxAttempts leased = types.MaxAttempts job
    /\ sys.jobs (sys.redis (snd (queue.DequeueJob workerID w))) !! jobID = Some leased
    /\ sys.pending (sys.redis (snd (queue.DequeueJob workerID w))) = front
    /\ sys.processing (sys.redis (snd (queue.DequeueJob workerID w)))
       = jobID :: sys.processing (sys.redis w)
    /\ effect_ext.counter "pending" (snd (queue.DequeueJob workerID w))
       = effect_ext.counter "pending" w - 1
    /\ effect_ext.counter "processing" (snd (queue.DequeueJob workerID w))
       = effect_ext.counter "processing" w + 1.
Proof.
  intros Hp Hjob Hkey.
  rewrite (DequeueJob_lease w workerID jobID front job Hp Hjob).
  eexists. split; [reflexivity |]. unfold effect_ext.counter. simpl.
  rewrite Hkey, lookup_insert_eq.
  repeat split; try reflexivity.
  - counters.
  - counters.
Qed.



(** X5.  Without a record under the id, [CompleteJob] and [FailJob] return
    the error of the lookup and change nothing: an id on the processing
    list whose record is gone stays there. *)
Theorem outcome_without_record (w : sys.World) (jobID errorMsg : string)
  (result : types.RawMessage) :
  sys.jobs (sys.redis w) !! jobID = None ->
  queue.CompleteJob jobID result w = (Some ("job not found: " ++ jobID), w)
  /\ queue.FailJob jobID errorMsg w = (Some ("job not found: " ++ jobID), w).
Proof.
  intros Hjob. split.
  - apply CompleteJob_missing. exact Hjob.
  - unfold queue.FailJob, queue.GetJob, queue.Get. run_world.
    rewrite Hjob. reflexivity.
Qed.

Ltac step := unfold mbind at 1; unfold sys.M_bind at 1.
Ltac step_in H := unfold mbind at 1 in H; unfold sys.M_bind at 1 in H.
Ltac run_world_in H :=
  unfold mbind, sys.M_bind, mret, sys.M_ret, sys.get_redis, sys.put_redis,
    sys.get_db, sys.put_db, sys.Now, sys.run in H; simpl in H.



Lemma keyed_insert (w : sys.World) (job : types.Job) :
  effect_ext.keyed w ->
  forall (id : string) (found : types.Job),
    <[types.ID job := job]> (sys.jobs (sys.redis w)) !! id = Some found ->
    types.ID found = id.
Proof.
  intros Hk id found Hl.
  destruct (decide (types.ID job = id)) as [<- | Hne].
  - rewrite lookup_insert_eq in Hl. congruence.
  - rewrite lookup_insert_ne in Hl by exact Hne. apply Hk. exact Hl.
Qed.

(** X8.  Every queue operation keeps each record of Redis under the id
    the record carries. *)
Theorem keyed_preserved (w : sys.World) (job : types.Job)
  (workerID jobID errorMsg : string) (result : types.RawMessage) :
  effect_ext.keyed w ->
  effect_ext.keyed (snd (queue.EnqueueJob job w))
  /\ effect_ext.keyed (snd (queue.DequeueJob workerID w))
  /\ effect_ext.keyed (snd (queue.CompleteJob jobID result w))
  /\ effect_ext.keyed (snd (queue.FailJob jobID errorMsg w)).
Proof.
  intros Hk. repeat split.
  - rewrite EnqueueJob_run. intros id found. simpl.
    apply (keyed_insert w job Hk).
  - unfold queue.DequeueJob, queue.BRPopLPush, queue.GetJob, queue.Get,
      queue.LRem1, queue.UpdateJob, queue.Set_, queue.HIncrBy.
    run_world.
    destruct (rev (sys.pending (sys.redis w))) as [| v front]; [exact Hk |].
    simpl. destruct (sys.jobs (sys.redis w) !! v) as [j |] eqn:Hj; simpl.
    + intros id found. simpl.
      apply (keyed_insert w
               (effect_ext.leased j workerID (sys.clock w (sys.ticks w))) Hk).
    + exact Hk.
  - destruct (sys.jobs (sys.redis w) !! jobID) as [j |] eqn:Hj.
    + rewrite (CompleteJob_run w jobID result j Hj). intros id found. simpl.
      apply (keyed_insert w
               (effect_ext.completed j result (sys.clock w (sys.ticks w))) Hk).
    + rewrite CompleteJob_missing by exact Hj. exact Hk.
  - destruct (sys.jobs (sys.redis w) !! jobID) as [j |] eqn:Hj.
    + destruct (Z.lt_ge_cases (Go.add64 (types.Attempts j) 1) (types.MaxAttempts j)).
      * rewrite (FailJob_retry w jobID errorMsg j) by assumption.
        intros id found. simpl.
        apply (keyed_insert w
                 (effect.retried j errorMsg (effect.first_reading w)
                    (effect.second_reading w)) Hk).
      * rewrite (FailJob_exhausted w jobID errorMsg j) by assumption.
        intros id found. simpl.
        apply (keyed_insert w
                 (effect.exhausted j errorMsg (effect.first_reading w)
                    (effect.second_reading w)) Hk).
    + rewrite FailJob_missing by exact Hj. exact Hk.
Qed.

(** ** The retry delay over all of int *)

(** X9.  As long as the product does not overflow, that is for attempt
    counts from 1 to 31, the delay is min(5 s * 2^(k-1), 5 min); it lies
    between 5 seconds and 5 minutes and is 5 minutes from the seventh
    attempt on. *)
Theorem calculateRetryDelay_no_overflow (k : Z) :
  1 <= k <= 31 ->
  queue.calculateRetryDelay k = Z.min (5 * time.Second * 2 ^ (k - 1)) (5 * time.Minute)
  /\ 5 * time.Second <= queue.calculateRetryDelay k <= 5 * time.Minute
  /\ (7 <= k -> queue.calculateRetryDelay k = 5 * time.Minute).
Proof.
  intros Hk.
  assert (Hn : exists n : nat, (n < 31)%nat /\ k = 1 + Z.of_nat n).
  { exists (Z.to_nat (k - 1)). lia. }
  destruct Hn as (n & Hn & ->).
  do 31 (destruct n as [| n];
         [vm_compute; repeat split; intros; try discriminate; try reflexivity;
          exfalso; auto |]).
  lia.
Qed.

(** X10.  Outside that range the int64 arithmetic shows: an attempt count
    of zero or less, or of 56 or more, gives a delay of zero, and between
    31 and 56 there is a count whose delay is negative. *)
Theorem calculateRetryDelay_degenerate (k : Z) :
  Go.is_int64 k ->
  k <= 0 \/ 56 <= k ->
  queue.calculateRetryDelay k = 0
  /\ exists j : Z, 31 < j < 56 /\ queue.calculateRetryDelay j < 0.
Proof.
  intros Hint Hk.
  split; [| exists 32; split; [lia | vm_compute; reflexivity]].
  unfold Go.is_int64, Go.min_int64, Go.max_int64 in Hint.
  destruct (Z_lt_le_dec k 65) as [Hsmall | Hbig].
  - destruct Hk as [Hneg | Hhigh].
    + unfold queue.calculateRetryDelay, Go.shl64.
      assert (Hshift : 64 <= Go.to_uint (Go.add64 k (-1))).
      { unfold Go.to_uint, Go.add64, Go.wrap64.
        destruct (Z.eq_dec k (- 2 ^ 63)) as [-> | Hne]; [vm_compute; discriminate |].
        rewrite (Z.mod_small (k + -1 + 2 ^ 63)) by lia.
        replace (k + -1 + 2 ^ 63 - 2 ^ 63) with ((k - 1 + 2 ^ 64) + (-1) * 2 ^ 64) by lia.
        rewrite Z_mod_plus_full, Z.mod_small by lia. lia. }
      destruct (Z.leb_spec 64 (Go.to_uint (Go.add64 k (-1)))); [| lia].
      vm_compute. reflexivity.
    + assert (Hcases : k = 56 \/ k = 57 \/ k = 58 \/ k = 59 \/ k = 60 \/ k = 61
                       \/ k = 62 \/ k = 63 \/ k = 64) by lia.
      repeat (destruct Hcases as [-> | Hcases]; [vm_compute; reflexivity |]).
      subst k. vm_compute. reflexivity.
  - unfold queue.calculateRetryDelay, Go.shl64.
    assert (Hshift : 64 <= Go.to_uint (Go.add64 k (-1))).
    { unfold Go.to_uint, Go.add64, Go.wrap64.
      rewrite (Z.mod_small (k + -1 + 2 ^ 63)) by lia.
      rewrite Z.mod_small by lia. lia. }
    destruct (Z.leb_spec 64 (Go.to_uint (Go.add64 k (-1)))); [| lia].
    vm_compute. reflexivity.
Qed.

(** ** Job ids *)

Lemma hexdigit_decodes (b : Byte.byte) :
  match json.hex_val (types.hexdigit (N.div (Byte.to_N b) 16)),
        json.hex_val (types.hexdigit (N.modulo (Byte.to_N b) 16)) with
  | Some h, Some l => Byte.of_N (16 * h + l)
  | _, _ => None
  end = Some b.
Proof. destruct b; reflexivity. Qed.

Lemma hexdigit_alphabet (b : Byte.byte) :
  In (types.hexdigit (N.div (Byte.to_N b) 16)) (list_ascii_of_string "0123456789abcdef")
  /\ In (types.hexdigit (N.modulo (Byte.to_N b) 16))
       (list_ascii_of_string "0123456789abcdef").
Proof. destruct b; vm_compute; tauto. Qed.

(** X11.  A job id has two characters for each random byte, 32 for the 16
    bytes [GenerateJobID] draws, and all of them are digits or the letters
    a to f in lower case. *)
Theorem GenerateJobID_shape (bytes : list Byte.byte) :
  String.length (types.GenerateJobID bytes) = (2 * List.length bytes)%nat
  /\ forall c : ascii,
       In c (list_ascii_of_string (types.GenerateJobID bytes)) ->
       In c (list_ascii_of_string "0123456789abcdef").
Proof.
  unfold types.GenerateJobID. split.
  - induction bytes as [| b bytes IH]; simpl; [reflexivity | rewrite IH; lia].
  - induction bytes as [| b bytes IH]; simpl; [intros c [] |].
    intros c [<- | [<- | Hin]]; [apply hexdigit_alphabet | apply hexdigit_alphabet |].
    apply IH. exact Hin.
Qed.

(** X12.  Different random bytes give different job ids. *)
Theorem GenerateJobID_injective (a b : list Byte.byte) :
  types.GenerateJobID a = types.GenerateJobID b -> a = b.
Proof.
  unfold types.GenerateJobID. revert b.
  induction a as [| x a IH]; intros [| y b] Heq; simpl in Heq;
    try reflexivity; try discriminate.
  injection Heq as Hhi Hlo Hrest.
  pose proof (hexdigit_decodes x) as Hx. pose proof (hexdigit_decodes y) as Hy.
  rewrite Hhi, Hlo, Hy in Hx. injection Hx as <-.
  f_equal. apply IH. exact Hrest.
Qed.

(** ** Retryable errors under wrapping *)

Lemma substring_skip (a s : string) (i n : nat) :
  String.substring (String.length a + i) n (a ++ s) = String.substring i n s.
Proof. induction a as [| c a IH]; simpl; [reflexivity | exact IH]. Qed.

Lemma substring_within (s b : string) (i n : nat) :
  (i + n <= String.length s)%nat ->
  String.substring i n (s ++ b) = String.substring i n s.
Proof.
  revert i n. induction s as [| c s IH]; intros i n Hle; simpl in *.
  - assert (i = 0%nat) by lia. assert (n = 0%nat) by lia. subst.
    destruct b; reflexivity.
  - destruct i as [| i].
    + destruct n as [| n]; [reflexivity |]. f_equal. apply IH. lia.
    + apply IH. lia.
Qed.

Lemma length_append (a b : string) :
  String.length (a ++ b) = (String.length a + String.length b)%nat.
Proof. induction a as [| c a IH]; simpl; [reflexivity | rewrite IH; reflexivity]. Qed.

(** X14.  Wrapping keeps an error retryable: when a message is retryable,
    so is the message with any text before and after it, as [fmt.Errorf]
    with [%w] builds it. *)
Theorem IsRetryableError_wrapped (msg before after : string) :
  types.IsRetryableError (Some msg) = true ->
  types.IsRetryableError (Some (before ++ msg ++ after)) = true.
Proof.
  unfold types.IsRetryableError. rewrite !existsb_exists.
  intros (p & Hin & Hp). exists p. split; [exact Hin |].
  apply contains_occurs in Hp. apply contains_occurs.
  destruct Hp as (i & Hi & Hs).
  exists (String.length before + i)%nat. split.
  - rewrite !length_append. lia.
  - rewrite substring_skip, substring_within by exact Hi. exact Hs.
Qed.

(** ** The store, row by row *)

(** X15.  [UpdateJob] writes at most the row of the job's id: it never
    adds a row, leaves every other row alone, and of the row itself keeps
    id, type, payload, max_attempts, created_at and scheduled_at while
    status, result, error, attempts, updated_at, started_at, completed_at
    and worker_id become the job's; Redis and the workers are not
    touched. *)
Theorem UpdateJob_columns (w : sys.World) (job : types.Job) :
  fst (storage.UpdateJob job w) = None
  /\ sys.redis (snd (storage.UpdateJob job w)) = sys.redis w
  /\ sys.workers_table (sys.db (snd (storage.UpdateJob job w)))
     = sys.workers_table (sys.db w)
  /\ (forall id : string,
        is_Some (sys.jobs_table (sys.db (snd (storage.UpdateJob job w))) !! id)
        <-> is_Some (sys.jobs_table (sys.db w) !! id))
  /\ (forall id : string, id <> types.ID job ->
        sys.jobs_table (sys.db (snd (storage.UpdateJob job w))) !! id
        = sys.jobs_table (sys.db w) !! id)
  /\ (forall row : types.Job,
        sys.jobs_table (sys.db w) !! types.ID job = Some row ->
        exists row' : types.Job,
          sys.jobs_table (sys.db (snd (storage.UpdateJob job w))) !! types.ID job
            = Some row'
          /\ types.ID row' = types.ID row
          /\ types.Type_ row' = types.Type_ row
          /\ types.Payload row' = types.Payload row
          /\ types.MaxAttempts row' = types.MaxAttempts row
          /\ types.CreatedAt row' = types.CreatedAt row
          /\ types.ScheduledAt row' = types.ScheduledAt row
          /\ types.Status row' = types.Status job
          /\ types.Result row' = types.Result job
          /\ types.Error row' = types.Error job
          /\ types.Attempts row' = types.Attempts job
          /\ types.UpdatedAt row' = types.UpdatedAt job
          /\ types.StartedAt row' = types.StartedAt job
          /\ types.CompletedAt row' = types.CompletedAt job
          /\ types.WorkerID row' = types.WorkerID job).
Proof.
  unfold storage.UpdateJob. run_world.
  destruct (sys.jobs_table (sys.db w) !! types.ID job) as [row |] eqn:Hrow; simpl.
  - repeat split; try reflexivity.
    + intros Hs. destruct (decide (id = types.ID job)) as [-> | Hne].
      * rewrite Hrow. eauto.
      * rewrite lookup_insert_ne in Hs by congruence. exact Hs.
    + intros Hs. destruct (decide (id = types.ID job)) as [-> | Hne].
      * rewrite lookup_insert_eq. eauto.
      * rewrite lookup_insert_ne by congruence. exact Hs.
    + intros id Hne. apply lookup_insert_ne. congruence.
    + intros row0 Hrow0. injection Hrow0 as <-.
      eexists. rewrite lookup_insert_eq. repeat split; reflexivity.
  - repeat split; try reflexivity; try tauto. intros row0 Hrow0. discriminate.
Qed.

(** X16.  [RegisterWorker] is an upsert in which the last writer wins:
    two registrations under one id leave what the second alone would
    leave, and neither touches another worker's row or the jobs. *)
Theorem RegisterWorker_last_wins (w : sys.World) (a b : types.Worker) :
  types.WID a = types.WID b ->
  snd (sys.run (storage.RegisterWorker a;; storage.RegisterWorker b) w)
    = snd (storage.RegisterWorker b w)
  /\ sys.workers_table (sys.db (snd (storage.RegisterWorker b w))) !! types.WID b
     = Some b
  /\ sys.jobs_table (sys.db (snd (storage.RegisterWorker b w)))
     = sys.jobs_table (sys.db w)
  /\ (forall id : string, id <> types.WID b ->
        sys.workers_table (sys.db (snd (storage.RegisterWorker b w))) !! id
        = sys.workers_table (sys.db w) !! id).
Proof.
  intros Hid. unfold storage.RegisterWorker. run_world.
  rewrite Hid, insert_insert_eq. repeat split.
  - apply lookup_insert_eq.
  - intros id Hne. apply lookup_insert_ne. congruence.
Qed.


(** ** The worker, turn by turn *)

Lemma DequeueJob_record_missing_run (w : sys.World) (workerID jobID : string)
  (front : list string) :
  sys.pending (sys.redis w) = (front ++ [jobID])%list ->
  sys.jobs (sys.redis w) !! jobID = None ->
  fst (queue.DequeueJob workerID w) = (None, Some ("job not found: " ++ jobID)).
Proof.
  intros Hpending Hjob.
  unfold queue.DequeueJob, queue.BRPopLPush, queue.GetJob, queue.Get, queue.LRem1.
  run_world. rewrite Hpending, List.rev_app_distr. simpl.
  rewrite Hjob. reflexivity.
Qed.

Lemma DequeueJob_some (w w1 : sys.World) (workerID : string) (job : types.Job) :
  queue.DequeueJob workerID w = ((Some job, None), w1) ->
  exists (front : list string) (jobID : string) (held : types.Job),
    sys.pending (sys.redis w) = (front ++ [jobID])%list
    /\ sys.jobs (sys.redis w) !! jobID = Some held
    /\ job = effect_ext.leased held workerID (sys.clock w (sys.ticks w))
    /\ w1 = effect_ext.lease w front jobID held workerID.
Proof.
  intros HD.
  destruct (rev (sys.pending (sys.redis w))) as [| jobID tail] eqn:Hrev.
  - assert (Hp : sys.pending (sys.redis w) = []).
    { rewrite <- (rev_involutive (sys.pending (sys.redis w))), Hrev. reflexivity. }
    rewrite (DequeueJob_empty w workerID Hp) in HD. discriminate.
  - assert (Hp : sys.pending (sys.redis w) = (rev tail ++ [jobID])%list).
    { rewrite <- (rev_involutive (sys.pending (sys.redis w))), Hrev. reflexivity. }
    destruct (sys.jobs (sys.redis w) !! jobID) as [held |] eqn:Hjob.
    + rewrite (DequeueJob_lease w workerID jobID (rev tail) held Hp Hjob) in HD.
      injection HD as <- <-. exists (rev tail), jobID, held. auto.
    + pose proof (DequeueJob_record_missing_run w workerID jobID (rev tail) Hp Hjob)
        as Hmiss.
      rewrite HD in Hmiss. discriminate.
Qed.

(** X18.  A turn of the worker on an empty pending list returns nil and
    changes nothing: no record, no row, not the worker's own row, and the
    clock is not read. *)
Theorem processNextJob_nothing_pending (wk : worker.Worker) (w : sys.World) :
  sys.pending (sys.redis w) = [] ->
  worker.processNextJob wk w = (None, w).
Proof.
  intros Hp. unfold worker.processNextJob. step.
  rewrite (DequeueJob_empty w (worker.ID wk) Hp). reflexivity.
Qed.


(** X20.  A turn of the worker whose handler fails: what becomes of the
    job in Redis depends on the attempt counts alone, not on the error
    being of the retryable kind.  The record carries the error and one
    more attempt; with attempts to spare it is Retrying and its id is back
    at the head of the pending list and once more on the processing list;
    otherwise it is Failed and both lists are as before but for the leased
    id. *)
Theorem processNextJob_failure_decision (wk : worker.Worker) (w : sys.World)
  (front : list string) (jobID : string) (held : types.Job)
  (result : types.RawMessage) (e : string) :
  sys.pending (sys.redis w) = (front ++ [jobID])%list ->
  sys.jobs (sys.redis w) !! jobID = Some held ->
  types.ID held = jobID ->
  worker.ProcessJob (worker.registry wk)
    (effect_ext.leased held (worker.ID wk) (sys.clock w (sys.ticks w)))
    = (result, Some e) ->
  exists after : types.Job,
    fst (worker.processNextJob wk w) = None
    /\ sys.jobs (sys.redis (snd (worker.processNextJob wk w))) !! jobID = Some after
    /\ types.Error after = e
    /\ types.Attempts after = Go.add64 (types.Attempts held) 1
    /\ types.MaxAttempts after = types.MaxAttempts held
    /\ (Go.add64 (types.Attempts held) 1 < types.MaxAttempts held ->
        types.Status after = types.JobStatusRetrying
        /\ sys.pending (sys.redis (snd (worker.processNextJob wk w))) = jobID :: front
        /\ sys.processing (sys.redis (snd (worker.processNextJob wk w)))
           = jobID :: sys.processing (sys.redis w))
    /\ (types.MaxAttempts held <= Go.add64 (types.Attempts held) 1 ->
        types.Status after = types.JobStatusFailed
        /\ sys.pending (sys.redis (snd (worker.processNextJob wk w))) = front
        /\ sys.processing (sys.redis (snd (worker.processNextJob wk w)))
           = sys.processing (sys.redis w)).
Proof.
  intros Hp Hjob Hkey HP.
  destruct (worker.processNextJob wk w) as [err w'] eqn:Hrun.
  unfold worker.processNextJob in Hrun. step_in Hrun.
  rewrite (DequeueJob_lease w (worker.ID wk) jobID front held Hp Hjob) in Hrun.
  unfold worker.updateWorkerStatus, storage.RegisterWorker in Hrun.
  run_world_in Hrun. rewrite HP in Hrun. simpl in Hrun.
  destruct (Z.lt_ge_cases (Go.add64 (types.Attempts held) 1) (types.MaxAttempts held))
    as [Hlt | Hge].
  - erewrite FailJob_retry in Hrun.
    2: { simpl. rewrite Hkey. apply lookup_insert_eq. }
    2: { exact Hlt. }
    unfold storage.UpdateJob in Hrun. run_world_in Hrun.
    match type of Hrun with
    | context [match ?o with Some _ => _ | None => _ end] => destruct o
    end; injection Hrun as <- <-; simpl;
      rewrite Hkey, !lookup_insert_eq;
      (eexists; repeat split; try reflexivity; intros; lia).
  - erewrite FailJob_exhausted in Hrun.
    2: { simpl. rewrite Hkey. apply lookup_insert_eq. }
    2: { exact Hge. }
    unfold storage.UpdateJob in Hrun. run_world_in Hrun.
    match type of Hrun with
    | context [match ?o with Some _ => _ | None => _ end] => destruct o
    end; injection Hrun as <- <-; simpl;
      rewrite Hkey, String.eqb_refl, !lookup_insert_eq;
      (eexists; repeat split; try reflexivity; intros; lia).
Qed.

(** One failing turn on a queue holding just the job, in both stores. *)
Lemma failing_turn (wk : worker.Worker) (w : sys.World) (jobID : string)
  (held row : types.Job) (e : string) :
  sys.pending (sys.redis w) = [jobID] ->
  sys.jobs (sys.redis w) !! jobID = Some held ->
  types.ID held = jobID ->
  sys.jobs_table (sys.db w) !! jobID = Some row ->
  (forall j : types.Job, types.Type_ j = types.Type_ held ->
     worker.ProcessJob (worker.registry wk) j = (EmptyString, Some e)) ->
  Go.is_int64 (types.Attempts held) ->
  types.Attempts held < Go.max_int64 ->
  exists (after row' : types.Job) (now : time.Time),
    sys.jobs (sys.redis (snd (worker.processNextJob wk w))) !! jobID = Some after
    /\ sys.jobs_table (sys.db (snd (worker.processNextJob wk w))) !! jobID = Some row'
    /\ types.ID after = jobID
    /\ types.Type_ after = types.Type_ held
    /\ types.Attempts after = types.Attempts held + 1
    /\ types.MaxAttempts after = types.MaxAttempts held
    /\ types.Error after = e
    /\ types.Status row' = types.JobStatusFailed
    /\ types.Attempts row' = types.Attempts held + 1
    /\ types.Error row' = e
    /\ (types.Attempts held + 1 < types.MaxAttempts held ->
        types.Status after = types.JobStatusRetrying
        /\ sys.pending (sys.redis (snd (worker.processNextJob wk w))) = [jobID]
        /\ sys.processing (sys.redis (snd (worker.processNextJob wk w)))
           = jobID :: sys.processing (sys.redis w))
    /\ (types.MaxAttempts held <= types.Attempts held + 1 ->
        types.Status after = types.JobStatusFailed
        /\ types.CompletedAt after = Some now
        /\ (exists t, types.CompletedAt row' = Some t)
        /\ sys.pending (sys.redis (snd (worker.processNextJob wk w))) = []
        /\ sys.processing (sys.redis (snd (worker.processNextJob wk w)))
           = sys.processing (sys.redis w)).
Proof.
  intros Hp Hjob Hkey Hrow Hfail Hint Hmax.
  pose proof (add64_succ _ Hint Hmax) as Hinc.
  destruct (worker.processNextJob wk w) as [err w'] eqn:Hrun.
  unfold worker.processNextJob in Hrun. step_in Hrun.
  rewrite (DequeueJob_lease w (worker.ID wk) jobID [] held Hp Hjob) in Hrun.
  unfold worker.updateWorkerStatus, storage.RegisterWorker in Hrun.
  run_world_in Hrun.
  erewrite Hfail in Hrun by reflexivity. simpl in Hrun. rewrite Hinc in Hrun.
  destruct (Z.lt_ge_cases (types.Attempts held + 1) (types.MaxAttempts held))
    as [Hlt | Hge].
  - erewrite FailJob_retry in Hrun.
    2: { simpl. rewrite Hkey. apply lookup_insert_eq. }
    2: { simpl. rewrite Hinc. exact Hlt. }
    unfold storage.UpdateJob in Hrun. run_world_in Hrun.
    destruct (Z.leb_spec (types.MaxAttempts held) (types.Attempts held + 1));
      [lia |].
    simpl in Hrun. rewrite Hkey, Hrow in Hrun. injection Hrun as <- <-. simpl.
    rewrite ?Hkey, !lookup_insert_eq.
    do 2 eexists. exists 0.
    split; [reflexivity |]. split; [reflexivity |]. simpl. rewrite ?Hinc, ?Hkey.
    repeat split; try reflexivity; intros; lia.
  - erewrite FailJob_exhausted in Hrun.
    2: { simpl. rewrite Hkey. apply lookup_insert_eq. }
    2: { simpl. rewrite Hinc. exact Hge. }
    unfold storage.UpdateJob in Hrun. run_world_in Hrun.
    destruct (Z.leb_spec (types.MaxAttempts held) (types.Attempts held + 1));
      [| lia].
    simpl in Hrun. rewrite Hkey, Hrow in Hrun. injection Hrun as <- <-. simpl.
    rewrite ?Hkey, ?String.eqb_refl, !lookup_insert_eq.
    do 3 eexists.
    split; [reflexivity |]. split; [reflexivity |]. simpl. rewrite ?Hinc, ?Hkey.
    repeat split; try reflexivity; try (intros; lia). eauto.
Qed.

Lemma rounds_step (n : nat) (wk : worker.Worker) (w : sys.World) :
  snd (worker_ext.rounds (S n) wk w)
  = snd (worker_ext.rounds n wk (snd (worker.processNextJob wk w))).
Proof.
  simpl. step. destruct (worker.processNextJob wk w) as [err w']. reflexivity.
Qed.

Lemma rounds_exhaust (n : nat) :
  forall (wk : worker.Worker) (w : sys.World) (jobID : string)
    (held row : types.Job) (e : string),
    sys.pending (sys.redis w) = [jobID] ->
    sys.jobs (sys.redis w) !! jobID = Some held ->
    types.ID held = jobID ->
    sys.jobs_table (sys.db w) !! jobID = Some row ->
    (forall j : types.Job, types.Type_ j = types.Type_ held ->
       worker.ProcessJob (worker.registry wk) j = (EmptyString, Some e)) ->
    0 <= types.Attempts held ->
    types.MaxAttempts held <= Go.max_int64 ->
    types.MaxAttempts held - types.Attempts held = Z.of_nat (S n) ->
    exists done row' : types.Job,
      sys.jobs (sys.redis (snd (worker_ext.rounds (S n) wk w))) !! jobID = Some done
      /\ sys.jobs_table (sys.db (snd (worker_ext.rounds (S n) wk w))) !! jobID
         = Some row'
      /\ types.Status done = types.JobStatusFailed
      /\ types.Attempts done = types.MaxAttempts held
      /\ types.Error done = e
      /\ is_Some (types.CompletedAt done)
      /\ types.Status row' = types.JobStatusFailed
      /\ types.Attempts row' = types.MaxAttempts held
      /\ types.Error row' = e
      /\ is_Some (types.CompletedAt row')
      /\ sys.pending (sys.redis (snd (worker_ext.rounds (S n) wk w))) = []
      /\ sys.processing (sys.redis (snd (worker_ext.rounds (S n) wk w)))
         = (List.repeat jobID n ++ sys.processing (sys.redis w))%list.
Proof.
  induction n as [| n IH];
    intros wk w jobID held row e Hp Hjob Hkey Hrow Hfail H0 Hmax Hn.
  - assert (Hint : Go.is_int64 (types.Attempts held))
      by (unfold Go.is_int64, Go.min_int64, Go.max_int64 in *; lia).
    assert (Hlt : types.Attempts held < Go.max_int64) by lia.
    destruct (failing_turn wk w jobID held row e Hp Hjob Hkey Hrow Hfail Hint Hlt)
      as (after & row' & now & Ha & Hr & _ & _ & Hatt & _ & Herr & Hrs & Hratt & Hrerr
          & _ & Hdone).
    destruct Hdone as (Hst & Hc & [t Hrc] & Hpend & Hproc); [lia |].
    rewrite rounds_step. simpl.
    exists after, row'. rewrite Hc, Hrc.
    repeat split; eauto; lia.
  - assert (Hint : Go.is_int64 (types.Attempts held))
      by (unfold Go.is_int64, Go.min_int64, Go.max_int64 in *; lia).
    assert (Hlt : types.Attempts held < Go.max_int64) by lia.
    destruct (failing_turn wk w jobID held row e Hp Hjob Hkey Hrow Hfail Hint Hlt)
      as (after & row' & now & Ha & Hr & Hid & Hty & Hatt & Hm & Herr & Hrs & Hratt
          & Hrerr & Hretry & _).
    destruct Hretry as (Hst & Hpend & Hproc); [lia |].
    rewrite rounds_step.
    assert (Hfail' : forall j : types.Job, types.Type_ j = types.Type_ after ->
               worker.ProcessJob (worker.registry wk) j = (EmptyString, Some e)).
    { intros j Hj. apply Hfail. congruence. }
    destruct (IH wk (snd (worker.processNextJob wk w)) jobID after row' e
                Hpend Ha Hid Hr Hfail') as (done & row'' & Hd); try lia.
    exists done, row''. rewrite Hm in Hd.
    destruct Hd as (? & ? & ? & ? & ? & ? & ? & ? & ? & ? & ? & Hps).
    repeat split; try assumption.
    rewrite Hps, Hproc.
    change (jobID :: sys.processing (sys.redis w))
      with ([jobID] ++ sys.processing (sys.redis w))%list.
    rewrite app_assoc. f_equal.
    change (jobID :: repeat jobID n) with (repeat jobID (S n)).
    symmetry. apply repeat_cons.
Qed.


(** X21.  A job whose type's handler always fails is leased once for each attempt
    it has left and then is Failed for good: after as many turns of the
    worker as max_attempts exceeds attempts, Redis and the store both show
    it Failed with attempts = max_attempts, the error and completed_at;
    nothing is pending, a further turn changes nothing, and each of the
    turns but the last has left a copy of the id on the processing list. *)
Theorem rounds_exhaust_attempts (wk : worker.Worker) (w : sys.World) (jobID : string)
  (held row : types.Job) (e : string) :
  sys.pending (sys.redis w) = [jobID] ->
  sys.jobs (sys.redis w) !! jobID = Some held ->
  types.ID held = jobID ->
  sys.jobs_table (sys.db w) !! jobID = Some row ->
  (forall j : types.Job, types.Type_ j = types.Type_ held ->
     worker.ProcessJob (worker.registry wk) j = (EmptyString, Some e)) ->
  0 <= types.Attempts held < types.MaxAttempts held ->
  types.MaxAttempts held <= Go.max_int64 ->
  exists (w' : sys.World) (done row' : types.Job),
    w' = snd (worker_ext.rounds
                (Z.to_nat (types.MaxAttempts held - types.Attempts held)) wk w)
    /\ sys.jobs (sys.redis w') !! jobID = Some done
    /\ sys.jobs_table (sys.db w') !! jobID = Some row'
    /\ types.Status done = types.JobStatusFailed
    /\ types.Attempts done = types.MaxAttempts held
    /\ types.Error done = e
    /\ is_Some (types.CompletedAt done)
    /\ types.Status row' = types.JobStatusFailed
    /\ types.Attempts row' = types.MaxAttempts held
    /\ types.Error row' = e
    /\ is_Some (types.CompletedAt row')
    /\ sys.pending (sys.redis w') = []
    /\ worker.processNextJob wk w' = (None, w')
    /\ sys.processing (sys.redis w')
       = (List.repeat jobID
            (Z.to_nat (types.MaxAttempts held - types.Attempts held) - 1)
          ++ sys.processing (sys.redis w))%list.
Proof.
  intros Hp Hjob Hkey Hrow Hfail Hatt Hmax.
  assert (Hn : exists n : nat,
             Z.to_nat (types.MaxAttempts held - types.Attempts held) = S n).
  { exists (Z.to_nat (types.MaxAttempts held - types.Attempts held - 1)). lia. }
  destruct Hn as [n Hn]. rewrite Hn.
  destruct (rounds_exhaust n wk w jobID held row e Hp Hjob Hkey Hrow Hfail)
    as (done & row' & Hd); try lia.
  destruct Hd as (? & ? & ? & ? & ? & ? & ? & ? & ? & ? & Hpend & Hproc).
  eexists. exists done, row'. split; [reflexivity |].
  repeat split; try assumption.
  - unfold worker.processNextJob. step.
    rewrite (DequeueJob_empty _ (worker.ID wk) Hpend). reflexivity.
  - rewrite Hproc. f_equal. f_equal. lia.
Qed.

(** ** The handlers *)


(** X23.  [createJob] refuses without a trace: a body that does not
    decode and a request that fails validation are answered 400 with the
    error as details, and the world is as it was; an id the store already
    has is answered 500 and neither the store nor Redis changes, so nothing
    is enqueued. *)
Theorem createJob_refusals (w : sys.World) (random : list Byte.byte) :
  (forall err : string,
     api_ext.createJob random (inr err) w
     = (api.ErrorResponse api.StatusBadRequest "INVALID_JSON" "Invalid JSON payload" err,
        w))
  /\ (forall (req : types.JobRequest.t) (msg : string),
        types.ValidateJobRequest req = Some msg ->
        api_ext.createJob random (inl req) w
        = (api.ErrorResponse api.StatusBadRequest "VALIDATION_ERROR"
             "Invalid job request" msg, w))
  /\ (forall req : types.JobRequest.t,
        types.ValidateJobRequest req = None ->
        is_Some (sys.jobs_table (sys.db w) !! types.GenerateJobID random) ->
        fst (api_ext.createJob random (inl req) w)
        = api.ErrorResponse api.StatusInternalServerError "STORAGE_ERROR"
            "Failed to create job" EmptyString
        /\ sys.redis (snd (api_ext.createJob random (inl req) w)) = sys.redis w
        /\ sys.db (snd (api_ext.createJob random (inl req) w)) = sys.db w).
Proof.
  split; [reflexivity |]. split.
  - intros req msg Hmsg. unfold api_ext.createJob. rewrite Hmsg. reflexivity.
  - intros req Hvalid [row Hrow].
    assert (Hid : forall now, types.ID (types.NewJob now random req)
                              = types.GenerateJobID random).
    { intros now. unfold types.NewJob.
      destruct (0 <? types.JobRequest.MaxAttempts req);
        destruct (types.JobRequest.ScheduledAt req); reflexivity. }
    unfold api_ext.createJob. rewrite Hvalid.
    unfold storage_ext.CreateJob. run_world. rewrite Hid, Hrow. simpl.
    repeat split.
Qed.

(** The world and the answer of [cancelJob] on a job Redis holds that is
    not in a terminal state. *)
Lemma cancelJob_run (w : sys.World) (jobID : string) (job : types.Job) :
  jobID <> EmptyString ->
  sys.jobs (sys.redis w) !! jobID = Some job ->
  types.Status job <> types.JobStatusCompleted ->
  types.Status job <> types.JobStatusFailed ->
  sys.redis (snd (api.cancelJob jobID w))
  = sys.redis (snd (queue.FailJob jobID "Job cancelled by user" w)).
Proof.
  intros Hid Hjob Hc Hf.
  assert (Hok : fst (queue.FailJob jobID "Job cancelled by user" w) = None)
    by (apply FailJob_succeeds; rewrite Hjob; eauto).
  unfold api.cancelJob.
  assert (He : types.is_empty jobID = false) by (apply String.eqb_neq; exact Hid).
  rewrite He.
  unfold queue.GetJob, queue.Get. run_world. rewrite Hjob. simpl.
  rewrite !bool_decide_eq_false_2 by assumption. simpl.
  destruct (queue.FailJob jobID "Job cancelled by user" w) as [err w1] eqn:HF.
  simpl in Hok. subst err. unfold storage.UpdateJob. run_world.
  destruct (sys.jobs_table (sys.db w1) !! types.ID job); reflexivity.
Qed.

(** X24.  After a cancellation [getJob] shows what Redis holds: a job
    with the error of the cancellation and one more attempt that is not
    Completed; it is Retrying when the job had attempts to spare and Failed
    otherwise. *)
Theorem cancelJob_then_getJob (w : sys.World) (jobID : string) (job : types.Job) :
  jobID <> EmptyString ->
  sys.jobs (sys.redis w) !! jobID = Some job ->
  types.ID job = jobID ->
  types.Status job <> types.JobStatusCompleted ->
  types.Status job <> types.JobStatusFailed ->
  exists seen : types.Job,
    fst (api_ext.getJob jobID (snd (api.cancelJob jobID w)))
      = api.JobResponse api.StatusOK seen EmptyString
    /\ types.Error seen = "Job cancelled by user"
    /\ types.Attempts seen = Go.add64 (types.Attempts job) 1
    /\ types.Status seen <> types.JobStatusCompleted
    /\ (Go.add64 (types.Attempts job) 1 < types.MaxAttempts job ->
        types.Status seen = types.JobStatusRetrying)
    /\ (types.MaxAttempts job <= Go.add64 (types.Attempts job) 1 ->
        types.Status seen = types.JobStatusFailed).
Proof.
  intros Hid Hjob Hkey Hc Hf.
  pose proof (cancelJob_run w jobID job Hid Hjob Hc Hf) as Hredis.
  assert (He : types.is_empty jobID = false) by (apply String.eqb_neq; exact Hid).
  unfold api_ext.getJob. rewrite He.
  unfold queue.GetJob, queue.Get. run_world. rewrite Hredis.
  destruct (Z.lt_ge_cases (Go.add64 (types.Attempts job) 1) (types.MaxAttempts job))
    as [Hlt | Hge].
  - rewrite (FailJob_retry w jobID _ job Hjob Hlt). simpl.
    rewrite Hkey, lookup_insert_eq. simpl.
    eexists. split; [reflexivity |]. simpl.
    repeat split; try reflexivity; try discriminate; intros; lia.
  - rewrite (FailJob_exhausted w jobID _ job Hjob Hge). simpl.
    rewrite Hkey, lookup_insert_eq. simpl.
    eexists. split; [reflexivity |]. simpl.
    repeat split; try reflexivity; try discriminate; intros; lia.
Qed.

(** X25.  A job only the store still has cannot be cancelled: with no
    record in Redis and a row that is not in a terminal state, [cancelJob]
    answers 500 and changes nothing. *)
Theorem cancelJob_without_record (w : sys.World) (jobID : string) (row : types.Job) :
  jobID <> EmptyString ->
  sys.jobs (sys.redis w) !! jobID = None ->
  sys.jobs_table (sys.db w) !! jobID = Some row ->
  types.Status row <> types.JobStatusCompleted ->
  types.Status row <> types.JobStatusFailed ->
  api.cancelJob jobID w
  = (api.ErrorResponse api.StatusInternalServerError "CANCEL_ERROR"
       "Failed to cancel job" EmptyString, w).
Proof.
  intros Hid Hjob Hrow Hc Hf.
  unfold api.cancelJob.
  assert (He : types.is_empty jobID = false) by (apply String.eqb_neq; exact Hid).
  rewrite He.
  unfold queue.GetJob, queue.Get, storage.GetJob. run_world.
  rewrite Hjob. simpl. rewrite Hrow. simpl.
  rewrite !bool_decide_eq_false_2 by assumption. simpl.
  rewrite FailJob_missing by exact Hjob. reflexivity.
Qed.

(** X26.  Cancelling a job that is still waiting does not take it out of
    the queue: its id stays at the tail of the pending list, and the next
    lease hands the job, with the error of the cancellation on it, to a
    worker as Processing. *)
Theorem cancelled_job_still_leased (w : sys.World) (jobID workerID : string)
  (front : list string) (job : types.Job) :
  jobID <> EmptyString ->
  sys.pending (sys.redis w) = (front ++ [jobID])%list ->
  sys.jobs (sys.redis w) !! jobID = Some job ->
  types.ID job = jobID ->
  types.Status job <> types.JobStatusCompleted ->
  types.Status job <> types.JobStatusFailed ->
  exists leased : types.Job,
    fst (queue.DequeueJob workerID (snd (api.cancelJob jobID w))) = (Some leased, None)
    /\ types.ID leased = jobID
    /\ types.Status leased = types.JobStatusProcessing
    /\ types.WorkerID leased = workerID
    /\ types.Error leased = "Job cancelled by user".
Proof.
  intros Hid Hp Hjob Hkey Hc Hf.
  pose proof (cancelJob_run w jobID job Hid Hjob Hc Hf) as Hredis.
  destruct (Z.lt_ge_cases (Go.add64 (types.Attempts job) 1) (types.MaxAttempts job))
    as [Hlt | Hge].
  - rewrite (FailJob_retry w jobID _ job Hjob Hlt) in Hredis. simpl in Hredis.
    rewrite (DequeueJob_lease _ workerID jobID (jobID :: front)
               (effect.retried job "Job cancelled by user" (effect.first_reading w)
                  (effect.second_reading w))).
    + eexists. split; [reflexivity |]. simpl. repeat split; auto.
    + rewrite Hredis. simpl. rewrite Hkey, Hp. reflexivity.
    + rewrite Hredis. simpl. rewrite Hkey. apply lookup_insert_eq.
  - rewrite (FailJob_exhausted w jobID _ job Hjob Hge) in Hredis. simpl in Hredis.
    rewrite (DequeueJob_lease _ workerID jobID front
               (effect.exhausted job "Job cancelled by user" (effect.first_reading w)
                  (effect.second_reading w))).
    + eexists. split; [reflexivity |]. simpl. repeat split; auto.
    + rewrite Hredis. simpl. exact Hp.
    + rewrite Hredis. simpl. rewrite Hkey. apply lookup_insert_eq.
Qed.

(** ** The registry of processors *)

(** X27.  [RegisterProcessor] enters the processor under each type it
    supports and under no other: a lookup of a supported type gives the
    processor just registered, whatever was there before, and a lookup of
    any other type gives what it gave before. *)
Theorem RegisterProcessor_lookup (r : worker.ProcessorRegistry)
  (processor : worker_ext.Processor) (jobType : types.JobType) :
  (In jobType (worker_ext.SupportedJobTypes processor) ->
   worker_ext.GetProcessor (worker_ext.RegisterProcessor r processor) jobType
   = Some (worker_ext.Process processor))
  /\ (~ In jobType (worker_ext.SupportedJobTypes processor) ->
      worker_ext.GetProcessor (worker_ext.RegisterProcessor r processor) jobType
      = worker_ext.GetProcessor r jobType).
Proof.
  unfold worker_ext.RegisterProcessor, worker_ext.GetProcessor.
  destruct processor as [supported process]. simpl.
  revert r. induction supported as [| t supported IH]; intros r; simpl.
  - split; [intros [] | reflexivity].
  - destruct (IH (<[t := process]> r)) as [IHin IHout].
    destruct (in_dec string_dec jobType supported) as [Hin | Hnin].
    + split; [intros _; apply IHin; exact Hin |].
      intros Hno. exfalso. apply Hno. right. exact Hin.
    + split.
      * intros [-> | Hin]; [| contradiction].
        rewrite IHout by exact Hnin. apply lookup_insert_eq.
      * intros Hno. rewrite IHout by exact Hnin.
        apply lookup_insert_ne. intros ->. apply Hno. left. reflexivity.
Qed.

(** X28.  The registry a worker starts with has a processor for each of
    the four job types and for nothing else, so every request that passes
    validation has one. *)
Theorem NewProcessorRegistry_covers (email image webhook export : worker.JobProcessor) :
  worker_ext.GetProcessor (worker_ext.NewProcessorRegistry email image webhook export)
    types.JobTypeEmail = Some email
  /\ worker_ext.GetProcessor (worker_ext.NewProcessorRegistry email image webhook export)
       types.JobTypeImageResize = Some image
  /\ worker_ext.GetProcessor (worker_ext.NewProcessorRegistry email image webhook export)
       types.JobTypeWebhook = Some webhook
  /\ worker_ext.GetProcessor (worker_ext.NewProcessorRegistry email image webhook export)
       types.JobTypeDataExport = Some export
  /\ (forall t : types.JobType,
        is_Some (worker_ext.GetProcessor
                   (worker_ext.NewProcessorRegistry email image webhook export) t)
        <-> types.known_type t = true)
  /\ (forall req : types.JobRequest.t,
        types.ValidateJobRequest req = None ->
        is_Some (worker_ext.GetProcessor
                   (worker_ext.NewProcessorRegistry email image webhook export)
                   (types.JobRequest.Type_ req))).
Proof.
  assert (Hall : forall t : types.JobType,
             is_Some (worker_ext.GetProcessor
                        (worker_ext.NewProcessorRegistry email image webhook export) t)
             <-> types.known_type t = true).
  { intros t. unfold types.known_type.
    cbv [worker_ext.NewProcessorRegistry worker_ext.RegisterProcessor fold_left
         worker_ext.SupportedJobTypes worker_ext.Process worker_ext.GetProcessor].
    unfold worker.ProcessorRegistry.
    destruct (String.eqb_spec t types.JobTypeDataExport) as [-> | H4].
    { rewrite lookup_insert_eq. simpl. split; eauto. }
    rewrite lookup_insert_ne by congruence.
    destruct (String.eqb_spec t types.JobTypeWebhook) as [-> | H3].
    { rewrite lookup_insert_eq. simpl. split; eauto. }
    rewrite lookup_insert_ne by congruence.
    destruct (String.eqb_spec t types.JobTypeImageResize) as [-> | H2].
    { rewrite lookup_insert_eq. simpl. split; eauto. }
    rewrite lookup_insert_ne by congruence.
    destruct (String.eqb_spec t types.JobTypeEmail) as [-> | H1].
    { rewrite lookup_insert_eq. simpl. split; eauto. }
    rewrite lookup_insert_ne by congruence. rewrite lookup_empty. simpl.
    split; [intros [? ?]; discriminate | discriminate]. }
  split; [reflexivity |]. split; [reflexivity |]. split; [reflexivity |].
  split; [reflexivity |]. split; [exact Hall |].
  intros req Hvalid. apply Hall.
  unfold types.ValidateJobRequest in Hvalid.
  destruct (types.is_empty (types.JobRequest.Type_ req)); [discriminate |].
  destruct (Nat.eqb (String.length (types.JobRequest.Payload req)) 0);
    [discriminate |].
  destruct (types.known_type (types.JobRequest.Type_ req));
    [reflexivity | discriminate].
Qed.

(** ** Listing jobs *)

Lemma insert_newest_In (j x : types.Job) (l : list types.Job) :
  In x (listing.insert_newest j l) <-> x = j \/ In x l.
Proof.
  induction l as [| y l IH]; simpl.
  - intuition congruence.
  - destruct (types.CreatedAt y <=? types.CreatedAt j); simpl; rewrite ?IH;
      intuition congruence.
Qed.

Lemma insert_newest_length (j : types.Job) (l : list types.Job) :
  List.length (listing.insert_newest j l) = S (List.length l).
Proof.
  induction l as [| y l IH]; simpl; [reflexivity |].
  destruct (types.CreatedAt y <=? types.CreatedAt j); simpl; [reflexivity |].
  rewrite IH. reflexivity.
Qed.

Lemma newest_first_In (x : types.Job) (l : list types.Job) :
  In x (listing.newest_first l) <-> In x l.
Proof.
  induction l as [| y l IH]; simpl; [tauto |].
  rewrite insert_newest_In, IH. intuition congruence.
Qed.

Lemma newest_first_length (l : list types.Job) :
  List.length (listing.newest_first l) = List.length l.
Proof.
  induction l as [| y l IH]; simpl; [reflexivity |].
  rewrite insert_newest_length, IH. reflexivity.
Qed.

Lemma insert_newest_sorted (j : types.Job) (l : list types.Job) :
  StronglySorted listing.newer_or_equal l ->
  StronglySorted listing.newer_or_equal (listing.insert_newest j l).
Proof.
  induction 1 as [| y l Hs IH Hall]; simpl.
  - constructor; constructor.
  - destruct (Z.leb_spec (types.CreatedAt y) (types.CreatedAt j)) as [Hle | Hgt].
    + constructor; [constructor; assumption |].
      constructor; [exact Hle |].
      rewrite List.Forall_forall in *. intros x Hx.
      unfold listing.newer_or_equal in *. specialize (Hall x Hx). lia.
    + constructor; [exact IH |].
      rewrite List.Forall_forall in *. intros x Hx.
      apply insert_newest_In in Hx. destruct Hx as [-> | Hx].
      * unfold listing.newer_or_equal. lia.
      * apply Hall. exact Hx.
Qed.

Lemma newest_first_sorted (l : list types.Job) :
  StronglySorted listing.newer_or_equal (listing.newest_first l).
Proof.
  induction l as [| y l IH]; simpl; [constructor |].
  apply insert_newest_sorted. exact IH.
Qed.

Lemma sorted_skipn (n : nat) (l : list types.Job) :
  StronglySorted listing.newer_or_equal l ->
  StronglySorted listing.newer_or_equal (List.skipn n l).
Proof.
  revert l. induction n as [| n IH]; intros l Hs; simpl; [exact Hs |].
  destruct l as [| x l]; [constructor |].
  apply IH. inversion Hs; assumption.
Qed.

Lemma In_firstn_In (n : nat) (x : types.Job) (l : list types.Job) :
  In x (List.firstn n l) -> In x l.
Proof.
  revert l. induction n as [| n IH]; intros l Hx; simpl in Hx; [contradiction |].
  destruct l as [| y l]; [contradiction |].
  destruct Hx as [-> | Hx]; [left; reflexivity | right; apply IH; exact Hx].
Qed.

Lemma sorted_firstn (n : nat) (l : list types.Job) :
  StronglySorted listing.newer_or_equal l ->
  StronglySorted listing.newer_or_equal (List.firstn n l).
Proof.
  revert l. induction n as [| n IH]; intros l Hs; simpl; [constructor |].
  destruct l as [| x l]; [constructor |].
  inversion Hs as [| ? ? Hs' Hall]; subst.
  constructor; [apply IH; exact Hs' |].
  rewrite List.Forall_forall in *. intros y Hy. apply Hall.
  apply (In_firstn_In n). exact Hy.
Qed.

Lemma In_skipn_In (n : nat) (x : types.Job) (l : list types.Job) :
  In x (List.skipn n l) -> In x l.
Proof.
  revert l. induction n as [| n IH]; intros l Hx; simpl in Hx; [exact Hx |].
  destruct l as [| y l]; [contradiction |]. right. apply IH. exact Hx.
Qed.

(** X29.  [listJobs] and its page: whatever page and page size are asked
    for, the page size used is the one asked for when that lies between 1
    and 100 and 20 otherwise, the page is at least 1, and as long as the
    offset does not overflow the answer is a list: of at most page-size
    jobs, each a row of the store that passes the filters, newest first,
    with the total of all rows that pass and the number of pages that
    total comes to. *)
Theorem listJobs_page (w : sys.World) (page pageSize : Z) (status jobType : string) :
  page <= 2 ^ 56 ->
  Z.of_nat (List.length (listing.matching w status jobType)) <= 2 ^ 62 ->
  exists r : listing.ListJobsResponse,
    listing.listJobs page pageSize status jobType w = (inl r, w)
    /\ listing.PageSize r = (if (1 <=? pageSize) && (pageSize <=? 100)
                             then pageSize else 20)
    /\ listing.Page r = Z.max 1 page
    /\ listing.Total r = Z.of_nat (List.length (listing.matching w status jobType))
    /\ (List.length (listing.Jobs r) <= Z.to_nat (listing.PageSize r))%nat
    /\ (forall j : types.Job,
          In j (listing.Jobs r) -> In j (listing.matching w status jobType))
    /\ StronglySorted listing.newer_or_equal (listing.Jobs r)
    /\ (listing.TotalPages r - 1) * listing.PageSize r < listing.Total r
    /\ listing.Total r <= listing.TotalPages r * listing.PageSize r.
Proof.
  intros Hpage Hcount.
  unfold listing.listJobs, listing.ListJobs. run_world.
  fold (listing.matching w status jobType).
  set (rows := listing.matching w status jobType) in *.
  set (p := if page <? 1 then 1 else page).
  set (ps := if (pageSize <? 1) || (100 <? pageSize) then 20 else pageSize).
  assert (Hps : 1 <= ps <= 100).
  { subst ps. destruct (Z.ltb_spec pageSize 1); simpl; [lia |].
    destruct (Z.ltb_spec 100 pageSize); lia. }
  assert (Hpsv : ps = if (1 <=? pageSize) && (pageSize <=? 100) then pageSize else 20).
  { subst ps. destruct (Z.ltb_spec pageSize 1); destruct (Z.leb_spec 1 pageSize);
      simpl; try lia.
    destruct (Z.ltb_spec 100 pageSize); destruct (Z.leb_spec pageSize 100); lia. }
  assert (Hp : 1 <= p <= 2 ^ 56 /\ p = Z.max 1 page).
  { subst p. destruct (Z.ltb_spec page 1); lia. }
  destruct Hp as [Hp Hpv].
  assert (Hoff : Go.mul64 (Go.add64 p (-1)) ps = (p - 1) * ps).
  { unfold Go.mul64, Go.add64. rewrite (wrap64_id (p + -1)).
    - rewrite wrap64_id; [lia |].
      unfold Go.is_int64, Go.min_int64, Go.max_int64. nia.
    - unfold Go.is_int64, Go.min_int64, Go.max_int64. lia. }
  rewrite Hoff.
  destruct (Z.ltb_spec ps 0) as [? | _]; [lia |].
  destruct (Z.ltb_spec ((p - 1) * ps) 0) as [? | _]; [nia |].
  simpl. eexists. split; [reflexivity |]. simpl.
  assert (Htot : Go.add64 (Go.add64 (Z.of_nat (List.length rows)) ps) (-1)
                 = Z.of_nat (List.length rows) + ps - 1).
  { unfold Go.add64. rewrite (wrap64_id (Z.of_nat (List.length rows) + ps)).
    - rewrite wrap64_id; [lia |].
      unfold Go.is_int64, Go.min_int64, Go.max_int64. lia.
    - unfold Go.is_int64, Go.min_int64, Go.max_int64. lia. }
  rewrite Htot, Z.quot_div_nonneg by lia.
  pose proof (Z.div_mod (Z.of_nat (List.length rows) + ps - 1) ps) as Hdm.
  pose proof (Z.mod_pos_bound (Z.of_nat (List.length rows) + ps - 1) ps) as Hmb.
  repeat split; try assumption.
  - etransitivity; [apply firstn_le_length | lia].
  - intros j Hj. apply In_firstn_In, In_skipn_In in Hj.
    apply (proj1 (newest_first_In j rows)). exact Hj.
  - apply sorted_firstn, sorted_skipn, newest_first_sorted.
  - nia.
  - nia.
Qed.

(** ** The theorems above at the jobs and worlds of the scenarios *)

Lemma DequeueJob_hands_out_oldest_witness :
  (sys.pending (sys.redis scenario.world_queued) = ([] ++ [scenario.id_webhook])%list
   /\ sys.jobs (sys.redis scenario.world_queued) !! scenario.id_webhook = Some scenario.job_webhook
   /\ types.ID scenario.job_webhook = scenario.id_webhook)
  /\ (exists leased : types.Job,
    fst (queue.DequeueJob "worker-1" scenario.world_queued) = (Some leased, None)
    /\ types.ID leased = scenario.id_webhook
    /\ types.Status leased = types.JobStatusProcessing
    /\ types.WorkerID leased = "worker-1"
    /\ types.StartedAt leased = Some (sys.clock scenario.world_queued (sys.ticks scenario.world_queued))
    /\ types.UpdatedAt leased = sys.clock scenario.world_queued (sys.ticks scenario.world_queued)
    /\ types.Attempts leased = types.Attempts scenario.job_webhook
    /\ types.MaxAttempts leased = types.MaxAttempts scenario.job_webhook
    /\ sys.jobs (sys.redis (snd (queue.DequeueJob "worker-1" scenario.world_queued))) !! scenario.id_webhook = Some leased
    /\ sys.pending (sys.redis (snd (queue.DequeueJob "worker-1" scenario.world_queued))) = []
    /\ sys.processing (sys.redis (snd (queue.DequeueJob "worker-1" scenario.world_queued)))
       = scenario.id_webhook :: sys.processing (sys.redis scenario.world_queued)
    /\ effect_ext.counter "pending" (snd (queue.DequeueJob "worker-1" scenario.world_queued))
       = effect_ext.counter "pending" scenario.world_queued - 1
    /\ effect_ext.counter "processing" (snd (queue.DequeueJob "worker-1" scenario.world_queued))
       = effect_ext.counter "processing" scenario.world_queued + 1).
Proof.
  assert (H1 : sys.pending (sys.redis scenario.world_queued) = ([] ++ [scenario.id_webhook])%list)
    by (vm_compute; reflexivity).
  assert (H2 : sys.jobs (sys.redis scenario.world_queued) !! scenario.id_webhook = Some scenario.job_webhook)
    by (vm_compute; reflexivity).
  assert (H3 : types.ID scenario.job_webhook = scenario.id_webhook)
    by (vm_compute; reflexivity).
  split; [exact (conj H1 (conj H2 H3)) |].
  exact (DequeueJob_hands_out_oldest scenario.world_queued "worker-1" scenario.id_webhook [] scenario.job_webhook H1 H2 H3).
Defined.



Lemma outcome_without_record_witness :
  (sys.jobs (sys.redis scenario.world_expired) !! scenario.id_webhook = None)
  /\ (queue.CompleteJob scenario.id_webhook scenario_ext.result_ok scenario.world_expired = (Some ("job not found: " ++ scenario.id_webhook), scenario.world_expired)
  /\ queue.FailJob scenario.id_webhook "boom" scenario.world_expired = (Some ("job not found: " ++ scenario.id_webhook), scenario.world_expired)).
Proof.
  assert (H1 : sys.jobs (sys.redis scenario.world_expired) !! scenario.id_webhook = None)
    by (vm_compute; reflexivity).
  split; [exact H1 |].
  exact (outcome_without_record scenario.world_expired scenario.id_webhook "boom" scenario_ext.result_ok H1).
Defined.



Lemma keyed_preserved_witness :
  (effect_ext.keyed scenario.world_empty)
  /\ (effect_ext.keyed (snd (queue.EnqueueJob scenario.job_webhook scenario.world_empty))
  /\ effect_ext.keyed (snd (queue.DequeueJob "worker-1" scenario.world_empty))
  /\ effect_ext.keyed (snd (queue.CompleteJob scenario.id_webhook scenario_ext.result_ok scenario.world_empty))
  /\ effect_ext.keyed (snd (queue.FailJob scenario.id_webhook "boom" scenario.world_empty))).
Proof.
  assert (H1 : effect_ext.keyed scenario.world_empty)
    by (intros id found Hfound; simpl in Hfound; rewrite lookup_empty in Hfound; discriminate).
  split; [exact H1 |].
  exact (keyed_preserved scenario.world_empty scenario.job_webhook "worker-1" scenario.id_webhook "boom" scenario_ext.result_ok H1).
Defined.

Lemma calculateRetryDelay_no_overflow_witness :
  (1 <= 20 <= 31)
  /\ (queue.calculateRetryDelay 20 = Z.min (5 * time.Second * 2 ^ (20 - 1)) (5 * time.Minute)
  /\ 5 * time.Second <= queue.calculateRetryDelay 20 <= 5 * time.Minute
  /\ (7 <= 20 -> queue.calculateRetryDelay 20 = 5 * time.Minute)).
Proof.
  assert (H1 : 1 <= 20 <= 31)
    by lia.
  split; [exact H1 |].
  exact (calculateRetryDelay_no_overflow 20 H1).
Defined.

Lemma calculateRetryDelay_degenerate_witness :
  (Go.is_int64 60
   /\ (60 <= 0 \/ 56 <= 60))
  /\ (queue.calculateRetryDelay 60 = 0
  /\ exists j : Z, 31 < j < 56 /\ queue.calculateRetryDelay j < 0).
Proof.
  assert (H1 : Go.is_int64 60)
    by (vm_compute; split; discriminate).
  assert (H2 : 60 <= 0 \/ 56 <= 60)
    by (right; lia).
  split; [exact (conj H1 H2) |].
  exact (calculateRetryDelay_degenerate 60 H1 H2).
Defined.

Lemma GenerateJobID_injective_witness :
  (types.GenerateJobID scenario.random16 = types.GenerateJobID scenario.random16)
  /\ (scenario.random16 = scenario.random16).
Proof.
  assert (H1 : types.GenerateJobID scenario.random16 = types.GenerateJobID scenario.random16)
    by reflexivity.
  split; [exact H1 |].
  exact (GenerateJobID_injective scenario.random16 scenario.random16 H1).
Defined.

Lemma IsRetryableError_wrapped_witness :
  (types.IsRetryableError (Some "connection refused") = true)
  /\ (types.IsRetryableError (Some ("failed to call webhook: " ++ "connection refused" ++ EmptyString)) = true).
Proof.
  assert (H1 : types.IsRetryableError (Some "connection refused") = true)
    by (vm_compute; reflexivity).
  split; [exact H1 |].
  exact (IsRetryableError_wrapped "connection refused" "failed to call webhook: " EmptyString H1).
Defined.

Lemma RegisterWorker_last_wins_witness :
  (types.WID scenario_ext.worker_starting = types.WID scenario_ext.worker_idle)
  /\ (snd (sys.run (storage.RegisterWorker scenario_ext.worker_starting;; storage.RegisterWorker scenario_ext.worker_idle) scenario.world_empty)
    = snd (storage.RegisterWorker scenario_ext.worker_idle scenario.world_empty)
  /\ sys.workers_table (sys.db (snd (storage.RegisterWorker scenario_ext.worker_idle scenario.world_empty))) !! types.WID scenario_ext.worker_idle
     = Some scenario_ext.worker_idle
  /\ sys.jobs_table (sys.db (snd (storage.RegisterWorker scenario_ext.worker_idle scenario.world_empty)))
     = sys.jobs_table (sys.db scenario.world_empty)
  /\ (forall id : string, id <> types.WID scenario_ext.worker_idle ->
        sys.workers_table (sys.db (snd (storage.RegisterWorker scenario_ext.worker_idle scenario.world_empty))) !! id
        = sys.workers_table (sys.db scenario.world_empty) !! id)).
Proof.
  assert (H1 : types.WID scenario_ext.worker_starting = types.WID scenario_ext.worker_idle)
    by reflexivity.
  split; [exact H1 |].
  exact (RegisterWorker_last_wins scenario.world_empty scenario_ext.worker_starting scenario_ext.worker_idle H1).
Defined.


Lemma processNextJob_nothing_pending_witness :
  (sys.pending (sys.redis scenario.world_empty) = [])
  /\ (worker.processNextJob scenario.failing_worker scenario.world_empty = (None, scenario.world_empty)).
Proof.
  assert (H1 : sys.pending (sys.redis scenario.world_empty) = [])
    by (vm_compute; reflexivity).
  split; [exact H1 |].
  exact (processNextJob_nothing_pending scenario.failing_worker scenario.world_empty H1).
Defined.


Lemma processNextJob_failure_decision_witness :
  (sys.pending (sys.redis scenario.world_queued) = ([] ++ [scenario.id_webhook])%list
   /\ sys.jobs (sys.redis scenario.world_queued) !! scenario.id_webhook = Some scenario.job_webhook
   /\ types.ID scenario.job_webhook = scenario.id_webhook
   /\ worker.ProcessJob (worker.registry scenario.failing_worker) (effect_ext.leased scenario.job_webhook (worker.ID scenario.failing_worker) (sys.clock scenario.world_queued (sys.ticks scenario.world_queued))) = (EmptyString, Some "connection refused"))
  /\ (exists after : types.Job,
    fst (worker.processNextJob scenario.failing_worker scenario.world_queued) = None
    /\ sys.jobs (sys.redis (snd (worker.processNextJob scenario.failing_worker scenario.world_queued))) !! scenario.id_webhook = Some after
    /\ types.Error after = "connection refused"
    /\ types.Attempts after = Go.add64 (types.Attempts scenario.job_webhook) 1
    /\ types.MaxAttempts after = types.MaxAttempts scenario.job_webhook
    /\ (Go.add64 (types.Attempts scenario.job_webhook) 1 < types.MaxAttempts scenario.job_webhook ->
        types.Status after = types.JobStatusRetrying
        /\ sys.pending (sys.redis (snd (worker.processNextJob scenario.failing_worker scenario.world_queued))) = scenario.id_webhook :: []
        /\ sys.processing (sys.redis (snd (worker.processNextJob scenario.failing_worker scenario.world_queued)))
           = scenario.id_webhook :: sys.processing (sys.redis scenario.world_queued))
    /\ (types.MaxAttempts scenario.job_webhook <= Go.add64 (types.Attempts scenario.job_webhook) 1 ->
        types.Status after = types.JobStatusFailed
        /\ sys.pending (sys.redis (snd (worker.processNextJob scenario.failing_worker scenario.world_queued))) = []
        /\ sys.processing (sys.redis (snd (worker.processNextJob scenario.failing_worker scenario.world_queued)))
           = sys.processing (sys.redis scenario.world_queued))).
Proof.
  assert (H1 : sys.pending (sys.redis scenario.world_queued) = ([] ++ [scenario.id_webhook])%list)
    by (vm_compute; reflexivity).
  assert (H2 : sys.jobs (sys.redis scenario.world_queued) !! scenario.id_webhook = Some scenario.job_webhook)
    by (vm_compute; reflexivity).
  assert (H3 : types.ID scenario.job_webhook = scenario.id_webhook)
    by (vm_compute; reflexivity).
  assert (H4 : worker.ProcessJob (worker.registry scenario.failing_worker) (effect_ext.leased scenario.job_webhook (worker.ID scenario.failing_worker) (sys.clock scenario.world_queued (sys.ticks scenario.world_queued))) = (EmptyString, Some "connection refused"))
    by (vm_compute; reflexivity).
  split; [exact (conj H1 (conj H2 (conj H3 H4))) |].
  exact (processNextJob_failure_decision scenario.failing_worker scenario.world_queued [] scenario.id_webhook scenario.job_webhook EmptyString "connection refused" H1 H2 H3 H4).
Defined.

Lemma rounds_exhaust_attempts_witness :
  (sys.pending (sys.redis scenario.world_queued) = [scenario.id_webhook]
   /\ sys.jobs (sys.redis scenario.world_queued) !! scenario.id_webhook = Some scenario.job_webhook
   /\ types.ID scenario.job_webhook = scenario.id_webhook
   /\ sys.jobs_table (sys.db scenario.world_queued) !! scenario.id_webhook = Some scenario.job_webhook
   /\ ((forall j : types.Job, types.Type_ j = types.Type_ scenario.job_webhook -> worker.ProcessJob (worker.registry scenario.failing_worker) j = (EmptyString, Some "connection refused")))
   /\ 0 <= types.Attempts scenario.job_webhook < types.MaxAttempts scenario.job_webhook
   /\ types.MaxAttempts scenario.job_webhook <= Go.max_int64)
  /\ (exists (w' : sys.World) (done row' : types.Job),
    w' = snd (worker_ext.rounds
                (Z.to_nat (types.MaxAttempts scenario.job_webhook - types.Attempts scenario.job_webhook)) scenario.failing_worker scenario.world_queued)
    /\ sys.jobs (sys.redis w') !! scenario.id_webhook = Some done
    /\ sys.jobs_table (sys.db w') !! scenario.id_webhook = Some row'
    /\ types.Status done = types.JobStatusFailed
    /\ types.Attempts done = types.MaxAttempts scenario.job_webhook
    /\ types.Error done = "connection refused"
    /\ is_Some (types.CompletedAt done)
    /\ types.Status row' = types.JobStatusFailed
    /\ types.Attempts row' = types.MaxAttempts scenario.job_webhook
    /\ types.Error row' = "connection refused"
    /\ is_Some (types.CompletedAt row')
    /\ sys.pending (sys.redis w') = []
    /\ worker.processNextJob scenario.failing_worker w' = (None, w')
    /\ sys.processing (sys.redis w')
       = (List.repeat scenario.id_webhook
            (Z.to_nat (types.MaxAttempts scenario.job_webhook - types.Attempts scenario.job_webhook) - 1)
          ++ sys.processing (sys.redis scenario.world_queued))%list).
Proof.
  assert (H1 : sys.pending (sys.redis scenario.world_queued) = [scenario.id_webhook])
    by (vm_compute; reflexivity).
  assert (H2 : sys.jobs (sys.redis scenario.world_queued) !! scenario.id_webhook = Some scenario.job_webhook)
    by (vm_compute; reflexivity).
  assert (H3 : types.ID scenario.job_webhook = scenario.id_webhook)
    by (vm_compute; reflexivity).
  assert (H4 : sys.jobs_table (sys.db scenario.world_queued) !! scenario.id_webhook = Some scenario.job_webhook)
    by (vm_compute; reflexivity).
  assert (H5 : (forall j : types.Job, types.Type_ j = types.Type_ scenario.job_webhook -> worker.ProcessJob (worker.registry scenario.failing_worker) j = (EmptyString, Some "connection refused")))
    by (intros j Hj; unfold worker.ProcessJob; rewrite Hj; reflexivity).
  assert (H6 : 0 <= types.Attempts scenario.job_webhook < types.MaxAttempts scenario.job_webhook)
    by (vm_compute; split; [discriminate | reflexivity]).
  assert (H7 : types.MaxAttempts scenario.job_webhook <= Go.max_int64)
    by (vm_compute; discriminate).
  split; [exact (conj H1 (conj H2 (conj H3 (conj H4 (conj H5 (conj H6 H7)))))) |].
  exact (rounds_exhaust_attempts scenario.failing_worker scenario.world_queued scenario.id_webhook scenario.job_webhook scenario.job_webhook "connection refused" H1 H2 H3 H4 H5 H6 H7).
Defined.


Lemma cancelJob_then_getJob_witness :
  (scenario.id_webhook <> EmptyString
   /\ sys.jobs (sys.redis scenario.world_leased) !! scenario.id_webhook = Some scenario.job_leased
   /\ types.ID scenario.job_leased = scenario.id_webhook
   /\ types.Status scenario.job_leased <> types.JobStatusCompleted
   /\ types.Status scenario.job_leased <> types.JobStatusFailed)
  /\ (exists seen : types.Job,
    fst (api_ext.getJob scenario.id_webhook (snd (api.cancelJob scenario.id_webhook scenario.world_leased)))
      = api.JobResponse api.StatusOK seen EmptyString
    /\ types.Error seen = "Job cancelled by user"
    /\ types.Attempts seen = Go.add64 (types.Attempts scenario.job_leased) 1
    /\ types.Status seen <> types.JobStatusCompleted
    /\ (Go.add64 (types.Attempts scenario.job_leased) 1 < types.MaxAttempts scenario.job_leased ->
        types.Status seen = types.JobStatusRetrying)
    /\ (types.MaxAttempts scenario.job_leased <= Go.add64 (types.Attempts scenario.job_leased) 1 ->
        types.Status seen = types.JobStatusFailed)).
Proof.
  assert (H1 : scenario.id_webhook <> EmptyString)
    by (vm_compute; discriminate).
  assert (H2 : sys.jobs (sys.redis scenario.world_leased) !! scenario.id_webhook = Some scenario.job_leased)
    by (vm_compute; reflexivity).
  assert (H3 : types.ID scenario.job_leased = scenario.id_webhook)
    by (vm_compute; reflexivity).
  assert (H4 : types.Status scenario.job_leased <> types.JobStatusCompleted)
    by (vm_compute; discriminate).
  assert (H5 : types.Status scenario.job_leased <> types.JobStatusFailed)
    by (vm_compute; discriminate).
  split; [exact (conj H1 (conj H2 (conj H3 (conj H4 H5)))) |].
  exact (cancelJob_then_getJob scenario.world_leased scenario.id_webhook scenario.job_leased H1 H2 H3 H4 H5).
Defined.

Lemma cancelJob_without_record_witness :
  (scenario.id_webhook <> EmptyString
   /\ sys.jobs (sys.redis scenario.world_expired) !! scenario.id_webhook = None
   /\ sys.jobs_table (sys.db scenario.world_expired) !! scenario.id_webhook = Some scenario.job_webhook
   /\ types.Status scenario.job_webhook <> types.JobStatusCompleted
   /\ types.Status scenario.job_webhook <> types.JobStatusFailed)
  /\ (api.cancelJob scenario.id_webhook scenario.world_expired
  = (api.ErrorResponse api.StatusInternalServerError "CANCEL_ERROR"
       "Failed to cancel job" EmptyString, scenario.world_expired)).
Proof.
  assert (H1 : scenario.id_webhook <> EmptyString)
    by (vm_compute; discriminate).
  assert (H2 : sys.jobs (sys.redis scenario.world_expired) !! scenario.id_webhook = None)
    by (vm_compute; reflexivity).
  assert (H3 : sys.jobs_table (sys.db scenario.world_expired) !! scenario.id_webhook = Some scenario.job_webhook)
    by (vm_compute; reflexivity).
  assert (H4 : types.Status scenario.job_webhook <> types.JobStatusCompleted)
    by (vm_compute; discriminate).
  assert (H5 : types.Status scenario.job_webhook <> types.JobStatusFailed)
    by (vm_compute; discriminate).
  split; [exact (conj H1 (conj H2 (conj H3 (conj H4 H5)))) |].
  exact (cancelJob_without_record scenario.world_expired scenario.id_webhook scenario.job_webhook H1 H2 H3 H4 H5).
Defined.

Lemma cancelled_job_still_leased_witness :
  (scenario.id_webhook <> EmptyString
   /\ sys.pending (sys.redis scenario.world_queued) = ([] ++ [scenario.id_webhook])%list
   /\ sys.jobs (sys.redis scenario.world_queued) !! scenario.id_webhook = Some scenario.job_webhook
   /\ types.ID scenario.job_webhook = scenario.id_webhook
   /\ types.Status scenario.job_webhook <> types.JobStatusCompleted
   /\ types.Status scenario.job_webhook <> types.JobStatusFailed)
  /\ (exists leased : types.Job,
    fst (queue.DequeueJob "worker-1" (snd (api.cancelJob scenario.id_webhook scenario.world_queued))) = (Some leased, None)
    /\ types.ID leased = scenario.id_webhook
    /\ types.Status leased = types.JobStatusProcessing
    /\ types.WorkerID leased = "worker-1"
    /\ types.Error leased = "Job cancelled by user").
Proof.
  assert (H1 : scenario.id_webhook <> EmptyString)
    by (vm_compute; discriminate).
  assert (H2 : sys.pending (sys.redis scenario.world_queued) = ([] ++ [scenario.id_webhook])%list)
    by (vm_compute; reflexivity).
  assert (H3 : sys.jobs (sys.redis scenario.world_queued) !! scenario.id_webhook = Some scenario.job_webhook)
    by (vm_compute; reflexivity).
  assert (H4 : types.ID scenario.job_webhook = scenario.id_webhook)
    by (vm_compute; reflexivity).
  assert (H5 : types.Status scenario.job_webhook <> types.JobStatusCompleted)
    by (vm_compute; discriminate).
  assert (H6 : types.Status scenario.job_webhook <> types.JobStatusFailed)
    by (vm_compute; discriminate).
  split; [exact (conj H1 (conj H2 (conj H3 (conj H4 (conj H5 H6))))) |].
  exact (cancelled_job_still_leased scenario.world_queued scenario.id_webhook "worker-1" [] scenario.job_webhook H1 H2 H3 H4 H5 H6).
Defined.

Lemma listJobs_page_witness :
  (0 <= 2 ^ 56
   /\ Z.of_nat (List.length (listing.matching scenario.world_queued "pending" EmptyString)) <= 2 ^ 62)
  /\ (exists r : listing.ListJobsResponse,
    listing.listJobs 0 500 "pending" EmptyString scenario.world_queued = (inl r, scenario.world_queued)
    /\ listing.PageSize r = (if (1 <=? 500) && (500 <=? 100)
                             then 500 else 20)
    /\ listing.Page r = Z.max 1 0
    /\ listing.Total r = Z.of_nat (List.length (listing.matching scenario.world_queued "pending" EmptyString))
    /\ (List.length (listing.Jobs r) <= Z.to_nat (listing.PageSize r))%nat
    /\ (forall j : types.Job,
          In j (listing.Jobs r) -> In j (listing.matching scenario.world_queued "pending" EmptyString))
    /\ StronglySorted listing.newer_or_equal (listing.Jobs r)
    /\ (listing.TotalPages r - 1) * listing.PageSize r < listing.Total r
    /\ listing.Total r <= listing.TotalPages r * listing.PageSize r).
Proof.
  assert (H1 : 0 <= 2 ^ 56)
    by (vm_compute; discriminate).
  assert (H2 : Z.of_nat (List.length (listing.matching scenario.world_queued "pending" EmptyString)) <= 2 ^ 62)
    by (vm_compute; discriminate).
  split; [exact (conj H1 H2) |].
  exact (listJobs_page scenario.world_queued 0 500 "pending" EmptyString H1 H2).
Defined.
